(** * The PWVD gateway routine [mexFunction] of [func_wrap/pwvd6_m.c]

    A shallow embedding of the MATLAB gateway of the polynomial
    Wigner-Ville distribution (TFSAP 7.1.1) and the properties of its
    parameter normalisation, its error paths and the shape of the
    matrix it allocates.

    Conventions of the embedding.
    - A C [int] is a [Z] of 32 bits.  The two operations of the routine
      that can leave the range, [<<= 1] and [++], wrap around
      ([CInt.wrap]): ISO C leaves the overflow undefined, two's
      complement machines wrap.  [(int) mxGetM(p)] and [(int) mxGetN(p)]
      keep the low 32 bits of the dimension ([CInt.of_size]).
    - A C [double] is a rational ([Q]).  [(int) d] discards the
      fractional part when the result is an [int] and is [-2^31]
      otherwise ([CInt.of_double]), which is what the x86-64 build of
      Makefile.mac reads where C defines no result; every parameter
      reaches the routine through this cast, and the statements below
      speak of the [int] it leaves ([int_value]).  Infinities and NaN
      have no counterpart in [Q].  [window_r2 * 0.5]
      halves an integer exactly; [(double)signal_length / time_res] is
      the rounded quotient of two integers below [2^31], and [ceil] of
      it is the ceiling of the exact quotient
      ([ceil_of_rounded_quotient]).
    - The host (MATLAB) and the routines of the package that the gateway
      calls ([GoodScalar], [tfsaErr], [tfsaWarning], [winNTcheck],
      [pwvd61]) are not part of the file.  Calls to them are recorded in
      a log of events; what the host and the engine answer is taken from
      a [host] record, what [GoodScalar] answers from the array.
    - A loop runs on fuel, one unit per turn; the routine is then a
      function of the fuel, and a loop that the fuel does not see the
      end of leaves the run [Spinning]. *)

From Stdlib Require Import ZArith QArith Qround List String Bool Lia.
Import ListNotations.

Local Open Scope Z_scope.

(** ** The C type [int] *)

Module CInt.

Definition width : Z := 32.
Definition half_modulus : Z := 2 ^ (width - 1).
Definition modulus : Z := 2 ^ width.

(** Reduction of an integer into the range of [int], from [-2^31] up to
    [2^31 - 1]. *)
Definition wrap (z : Z) : Z :=
  (z + half_modulus) mod modulus - half_modulus.

Definition in_range (z : Z) : Prop := - half_modulus <= z < half_modulus.

(** [x <<= 1] *)
Definition shl1 (x : Z) : Z := wrap (Z.shiftl x 1).

(** [x++] *)
Definition incr (x : Z) : Z := wrap (x + 1).

(** A double with its fractional part discarded. *)
Definition truncate (d : Q) : Z :=
  if Qle_bool 0 d then Qfloor d else Qceiling d.

(** [(int) d] for a double [d]: the truncated value when it is an
    [int].  For the others C defines no result; the conversion of the
    x86-64 build (Makefile.mac, [ARCHS = x86_64]) then yields [-2^31]. *)
Definition of_double (d : Q) : Z :=
  if (- half_modulus <=? truncate d) && (truncate d <? half_modulus)
  then truncate d
  else - half_modulus.

(** [(int) n] for a [size_t] [n], as [(int) mxGetM(p)]: the low 32 bits,
    read as a signed number. *)
Definition of_size (n : Z) : Z := wrap n.

(** [(double) x] *)
Definition to_double (x : Z) : Q := inject_Z x.

End CInt.

(** ** The two rounding loops *)

(** [deg_r2 = 1; while (deg_r2 < deg) deg_r2 <<= 1;]  One unit of fuel
    pays for one turn of the loop; [None] is a loop that has not left
    yet when the fuel is spent. *)
Fixpoint deg_loop (fuel : nat) (deg deg_r2 : Z) : option Z :=
  if deg_r2 <? deg then
    match fuel with
    | O => None
    | S fuel' => deg_loop fuel' deg (CInt.shl1 deg_r2)
    end
  else Some deg_r2.

(** [window_order = 0; window_r2 = 1;
     while (window_r2 < fft_length) { window_order++; window_r2 <<= 1; }]
    The result is the pair [(window_order, window_r2)]. *)
Fixpoint r2_loop (fuel : nat) (fft_length window_order window_r2 : Z)
  : option (Z * Z) :=
  if window_r2 <? fft_length then
    match fuel with
    | O => None
    | S fuel' =>
        r2_loop fuel' fft_length (CInt.incr window_order) (CInt.shl1 window_r2)
    end
  else Some (window_order, window_r2).

(** [(int) ceil((double)signal_length / time_res)].  The line is only
    reached with [1 <= time_res <= signal_length], where the ceiling is
    an [int] and the cast leaves it as it is ([nplts_of_cast]). *)
Definition nplts_of (signal_length time_res : Z) : Z :=
  Qceiling (CInt.to_double signal_length / CInt.to_double time_res).

(** [(int)(window_r2 * 0.5)] *)
Definition half_rows (window_r2 : Z) : Z :=
  CInt.of_double (CInt.to_double window_r2 * (1 # 2)).

(** ** Arrays of the host *)

(** What the gateway asks of an [mxArray].  [mxGetM] and [mxGetN] are
    the dimensions as the host holds them ([size_t], not yet cast);
    [GoodScalar] is the answer of the package's test of that name
    (tlocal.c), which the gateway takes as given; [mxGetPr] is the first
    real element, a double. *)
Record MATRIX : Type := mkMATRIX {
  mxIsNumeric : bool;
  MXFULL : bool;
  mxIsComplex : bool;
  mxGetM : Z;
  mxGetN : Z;
  GoodScalar : bool;
  mxGetPr : Q
}.

(** An array that is nothing: what [prhs[i]] stands for beyond [nrhs]. *)
Definition mxNULL : MATRIX := mkMATRIX false false false 0 0 false 0.

(** [(int) *(mxGetPr(p))] *)
Definition int_value (p : MATRIX) : Z := CInt.of_double (mxGetPr p).

(** ** The engine and the host *)

Module Engine.

(** The arguments of [pwvd61], the two data pointers apart: of
    [signal_i] only whether it is [NULL], of [result] nothing. *)
Record call : Type := mkcall {
  signal_i_null : bool;
  signal_length : Z;
  nplts : Z;
  time_res : Z;
  window_length : Z;
  window_r2 : Z;
  window_order : Z;
  deg : Z
}.

End Engine.

(** What the surroundings answer: whether [MXCREATEFULL(m, n, REAL)]
    yields a matrix or [NULL], and the status [pwvd61] returns. *)
Record host : Type := mkhost {
  create_ok : Z -> Z -> bool;
  pwvd61_status : Engine.call -> Z
}.

Inductive event : Type :=
| Err (name msg : string)
| Warning (name msg : string)
| NTcheck (nlhs : Z)
| Create (m n : Z) (ok : bool)
| Pwvd61 (c : Engine.call) (status : Z).

(** The part of the machine the gateway writes: the output slot
    [plhs[0]] (the shape of the matrix it points to, if any) and the
    calls made so far, oldest first. *)
Record world : Type := mkworld {
  plhs0 : option (Z * Z);
  log : list event
}.

Definition fresh : world := mkworld None [].

(** ** Sequencing with early [return] *)

Inductive flow (A : Type) : Type :=
| Next (a : A)      (* control reaches the next statement *)
| Returned          (* a [return;] was executed *)
| Spinning.         (* still inside a loop when the fuel ran out *)

Arguments Next {A} a.
Arguments Returned {A}.
Arguments Spinning {A}.

Definition gw (A : Type) : Type := world -> flow A * world.

Definition ret {A : Type} (a : A) : gw A := fun w => (Next a, w).

Definition bind {A B : Type} (m : gw A) (k : A -> gw B) : gw B :=
  fun w =>
    match m w with
    | (Next a, w') => k a w'
    | (Returned, w') => (Returned, w')
    | (Spinning, w') => (Spinning, w')
    end.

Definition return_ {A : Type} : gw A := fun w => (Returned, w).

Definition skip : gw unit := ret tt.

Definition emit (e : event) : gw unit :=
  fun w => (Next tt, mkworld (plhs0 w) (log w ++ [e])).

Definition of_loop {A : Type} (r : option A) : gw A :=
  fun w => match r with Some a => (Next a, w) | None => (Spinning, w) end.

Definition set_plhs0 (p : option (Z * Z)) : gw unit :=
  fun w => (Next tt, mkworld p (log w)).

Declare Scope gw_scope.
Delimit Scope gw_scope with gw.
Notation "x <- m ;; k" := (bind m (fun x => k))
  (at level 61, m at next level, right associativity) : gw_scope.
Notation "m ;; k" := (bind m (fun _ => k))
  (at level 61, right associativity) : gw_scope.
Notation "'IF' c 'THEN' m 'FI' ;; k" :=
  (bind (if c then m else skip) (fun _ => k))
  (at level 61, c at level 0, m at level 200, right associativity) : gw_scope.

Local Open Scope gw_scope.

(** ** Routines of the package that the gateway calls *)

(** [tfsaErr] and [tfsaWarning] (tfsa_c.c) hand a routine name and a
    message to the host and come back to the gateway, as the [return;]
    it writes after each [tfsaErr] supposes; the log keeps which of the
    two was called, and with what. *)
Definition tfsaErr (name msg : string) : gw unit := emit (Err name msg).

Definition tfsaWarning (name msg : string) : gw unit :=
  emit (Warning name msg).

(** Modelled from the spec: [winNTcheck] (tfsa_c.c, not among the
    sources).  It is the one call of every failure path that receives
    [plhs]; section 7 of the specification has every failure "discard
    partial state" and "return no result", so the model lets it empty
    the output slot. *)
Definition winNTcheck (nlhs : Z) : gw unit :=
  fun w => (Next tt, mkworld None (log w ++ [NTcheck nlhs])).

(** [MXCREATEFULL(m, n, REAL)]: the matrix, or [NULL]. *)
Definition MXCREATEFULL (h : host) (m n : Z) : gw (option (Z * Z)) :=
  fun w =>
    let ok := create_ok h m n in
    (Next (if ok then Some (m, n) else None),
     mkworld (plhs0 w) (log w ++ [Create m n ok])).

Definition pwvd61 (h : host) (c : Engine.call) : gw Z :=
  fun w =>
    let s := pwvd61_status h c in
    (Next s, mkworld (plhs0 w) (log w ++ [Pwvd61 c s])).

(** ** The gateway *)

(** [nrhs]: the number of right-hand arguments. *)
Definition nrhs_of (prhs : list MATRIX) : Z := Z.of_nat (List.length prhs).

(** [tfsaErr("pwvd61", msg); winNTcheck(nlhs, plhs); return;] *)
Definition fail (nlhs : Z) (msg : string) : gw unit :=
  tfsaErr "pwvd61" msg ;; winNTcheck nlhs ;; return_.

Definition mexFunction (h : host) (fuel : nat) (nlhs : Z)
  (prhs : list MATRIX) : gw unit :=
  let nrhs := nrhs_of prhs in
  let arg := fun i => nth i prhs mxNULL in
  (* basic input--output number check *)
  IF (nrhs <? 4) THEN fail nlhs "Not enough input arguments" FI ;;
  IF (nrhs >? 5) THEN fail nlhs "Too many input arguments" FI ;;
  IF (nlhs >? 1) THEN fail nlhs "Too many output arguments" FI ;;
  (* Check first input *)
  IF (negb (mxIsNumeric (arg 0%nat)) || negb (MXFULL (arg 0%nat)))
    THEN fail nlhs "Input must be a vector" FI ;;
  let M := CInt.of_size (mxGetM (arg 0%nat)) in
  let N := CInt.of_size (mxGetN (arg 0%nat)) in
  IF ((M =? 1) && (N =? 1) || negb (M =? 1) && negb (N =? 1))
    THEN fail nlhs "Input must be a vector" FI ;;
  let signal_length := if M >? N then M else N in
  (* Check second input *)
  IF (negb (GoodScalar (arg 1%nat)))
    THEN fail nlhs "Smoothing window length must be a scalar" FI ;;
  let window_length := int_value (arg 1%nat) in
  IF (window_length <? 1)
    THEN fail nlhs "Window length must be greater than zero" FI ;;
  (* Check window length against signal length *)
  window_length <-
    (if window_length >? signal_length
     then tfsaWarning "pwvd61"
            "Window length has been truncated to signal length" ;;
          ret signal_length
     else ret window_length) ;;
  (* Check third input *)
  IF (negb (GoodScalar (arg 2%nat)))
    THEN fail nlhs "Time resolution must be a scalar" FI ;;
  let time_res := int_value (arg 2%nat) in
  IF (time_res <? 1)
    THEN fail nlhs "Time resolution must be greater than zero" FI ;;
  IF (time_res >? signal_length)
    THEN fail nlhs "Time resolution must be no greater than signal length" FI ;;
  (* Process fourth input *)
  IF (negb (GoodScalar (arg 3%nat)))
    THEN fail nlhs "Interpolation degree must be a scalar" FI ;;
  let deg := int_value (arg 3%nat) in
  deg_r2 <- of_loop (deg_loop fuel deg 1) ;;
  let deg := deg_r2 in
  (* Process fifth input -- if exists *)
  fft_length <-
    (if nrhs =? 5
     then IF (negb (GoodScalar (arg 4%nat)))
            THEN fail nlhs "FFT length must be a scalar" FI ;;
          ret (int_value (arg 4%nat))
     else ret window_length) ;;
  IF (fft_length <? 0)
    THEN fail nlhs "FFT length must be greater than zero" FI ;;
  let fft_length :=
    if fft_length <? window_length then window_length else fft_length in
  (* Dereference input *)
  let signal_i_null := negb (mxIsComplex (arg 0%nat)) in
  (* Calculate number of times for computing PWVD *)
  let nplts := nplts_of signal_length time_res in
  (* calculate radix-2 value equal or above window_length *)
  r2 <- of_loop (r2_loop fuel fft_length 0 1) ;;
  let window_order := fst r2 in
  let window_r2 := snd r2 in
  p <- MXCREATEFULL h (half_rows window_r2) nplts ;;
  set_plhs0 p ;;
  IF (match p with None => true | Some _ => false end)
    THEN fail nlhs "Memory allocation failed" FI ;;
  status <- pwvd61 h (Engine.mkcall signal_i_null signal_length nplts
                        time_res window_length window_r2 window_order deg) ;;
  IF (negb (status =? 0))
    THEN tfsaErr "pwvd61" "Function failed" ;; winNTcheck nlhs FI ;;
  skip.

(** One call of the gateway from a machine with an empty output slot. *)
Definition run (h : host) (fuel : nat) (nlhs : Z) (prhs : list MATRIX)
  : flow unit * world :=
  mexFunction h fuel nlhs prhs fresh.

(** ** Vocabulary of the statements *)

(** [z] is a power of two: [1], [2], [4], ... *)
Definition is_pow2 (z : Z) : Prop := exists k, 0 <= k /\ z = 2 ^ k.

(** [p] is the least power of two that is no smaller than [x]. *)
Definition least_pow2_above (x p : Z) : Prop :=
  is_pow2 p /\ x <= p /\ forall q, is_pow2 q -> x <= q -> p <= q.

(** [c] is the least integer with [a <= c * b]: the ceiling of [a / b]. *)
Definition is_ceiling (a b c : Z) : Prop :=
  (c - 1) * b < a <= c * b.

(** The length the gateway reads off the first argument: the larger of
    its two dimensions, each as [(int)] leaves it. *)
Definition signal_length_of (s : MATRIX) : Z :=
  if CInt.of_size (mxGetM s) >? CInt.of_size (mxGetN s)
  then CInt.of_size (mxGetM s)
  else CInt.of_size (mxGetN s).

Definition has_error (l : list event) : bool :=
  existsb (fun e => match e with Err _ _ => true | _ => false end) l.

(** The shape asked of [MXCREATEFULL], if it was called. *)
Fixpoint requested_shape (l : list event) : option (Z * Z) :=
  match l with
  | [] => None
  | Create m n _ :: _ => Some (m, n)
  | _ :: l' => requested_shape l'
  end.

(** The arguments handed to [pwvd61], if it was called. *)
Fixpoint engine_call (l : list event) : option Engine.call :=
  match l with
  | [] => None
  | Pwvd61 c _ :: _ => Some c
  | _ :: l' => engine_call l'
  end.

(** The gateway's test of the first argument's dimensions; [true]
    sends it to "Input must be a vector". *)
Definition rejected_shape (s : MATRIX) : bool :=
  (CInt.of_size (mxGetM s) =? 1) && (CInt.of_size (mxGetN s) =? 1)
  || negb (CInt.of_size (mxGetM s) =? 1)
     && negb (CInt.of_size (mxGetN s) =? 1).

(** A row or a column of at least two samples, and of fewer than
    [2^31], so that its length is an [int]. *)
Definition vector_ge2 (s : MATRIX) : Prop :=
  (mxGetM s = 1 /\ 2 <= mxGetN s < 2 ^ 31) \/
  (mxGetN s = 1 /\ 2 <= mxGetM s < 2 ^ 31).

(** The window length after the check against the signal length. *)
Definition clamped (window_length signal_length : Z) : Z :=
  if window_length >? signal_length then signal_length else window_length.

Definition truncation_warning (window_length signal_length : Z)
  : list event :=
  if window_length >? signal_length
  then [Warning "pwvd61" "Window length has been truncated to signal length"]
  else [].

(** The transform length asked for: that of the fifth argument, or the
    window length when there is none. *)
Definition requested_fft (rest : list MATRIX) (window_length : Z) : Z :=
  match rest with
  | [] => window_length
  | pf :: _ => int_value pf
  end.

(** The transform length after it is raised to the window length. *)
Definition effective_fft (rest : list MATRIX) (window_length : Z) : Z :=
  if requested_fft rest window_length <? window_length
  then window_length
  else requested_fft rest window_length.

(** The fifth argument, when there is one, passes its two checks. *)
Definition fifth_ok (rest : list MATRIX) : Prop :=
  match rest with
  | [] => True
  | [pf] => GoodScalar pf = true /\ 0 <= int_value pf
  | _ => False
  end.

(** The call passes every check of the gateway. *)
Record validated (nlhs : Z) (sig pw pt pd : MATRIX) (rest : list MATRIX)
  : Prop := mkvalidated {
  v_nlhs : nlhs <= 1;
  v_numeric : mxIsNumeric sig = true;
  v_full : MXFULL sig = true;
  v_shape : rejected_shape sig = false;
  v_window_scalar : GoodScalar pw = true;
  v_window : 1 <= int_value pw;
  v_time_scalar : GoodScalar pt = true;
  v_time : 1 <= int_value pt <= signal_length_of sig;
  v_deg_scalar : GoodScalar pd = true;
  v_fifth : fifth_ok rest
}.

(** What is left of the gateway once the parameters are settled: the
    allocation, the engine, and the two failures they can report. *)
Definition computation (h : host) (nlhs : Z) (pre : list event)
  (rows cols : Z) (c : Engine.call) : flow unit * world :=
  if create_ok h rows cols then
    if pwvd61_status h c =? 0 then
      (Next tt,
       mkworld (Some (rows, cols))
         (pre ++ [Create rows cols true; Pwvd61 c (pwvd61_status h c)]))
    else
      (Next tt,
       mkworld None
         (pre ++ [Create rows cols true; Pwvd61 c (pwvd61_status h c);
                  Err "pwvd61" "Function failed"; NTcheck nlhs]))
  else
    (Returned,
     mkworld None
       (pre ++ [Create rows cols false;
                Err "pwvd61" "Memory allocation failed"; NTcheck nlhs])).

(** The log before the gateway's last act: empty, or the one warning. *)
Definition quiet (pre : list event) : Prop :=
  pre = [] \/
  pre = [Warning "pwvd61" "Window length has been truncated to signal length"].

(** The messages of the checks made before anything is computed. *)
Definition validation_messages : list string :=
  [ "Not enough input arguments";
    "Too many input arguments";
    "Too many output arguments";
    "Input must be a vector";
    "Smoothing window length must be a scalar";
    "Window length must be greater than zero";
    "Time resolution must be a scalar";
    "Time resolution must be greater than zero";
    "Time resolution must be no greater than signal length";
    "Interpolation degree must be a scalar";
    "FFT length must be a scalar";
    "FFT length must be greater than zero" ]%string.

(** The three ways a call of the gateway can go. *)
Inductive outcome (h : host) (fuel : nat) (nlhs : Z) (prhs : list MATRIX)
  : flow unit * world -> Prop :=
| Out_spinning (pre : list event) :
    quiet pre ->
    outcome h fuel nlhs prhs (Spinning, mkworld None pre)
| Out_rejected (pre : list event) (msg : string) :
    quiet pre ->
    In msg validation_messages ->
    outcome h fuel nlhs prhs
      (Returned, mkworld None (pre ++ [Err "pwvd61" msg; NTcheck nlhs]))
| Out_computed (sig pw pt pd : MATRIX) (rest : list MATRIX) (d o r2 : Z) :
    prhs = sig :: pw :: pt :: pd :: rest ->
    validated nlhs sig pw pt pd rest ->
    deg_loop fuel (int_value pd) 1 = Some d ->
    r2_loop fuel
      (effective_fft rest (clamped (int_value pw) (signal_length_of sig)))
      0 1 = Some (o, r2) ->
    outcome h fuel nlhs prhs
      (computation h nlhs
         (truncation_warning (int_value pw) (signal_length_of sig))
         (half_rows r2)
         (nplts_of (signal_length_of sig) (int_value pt))
         (Engine.mkcall (negb (mxIsComplex sig)) (signal_length_of sig)
            (nplts_of (signal_length_of sig) (int_value pt))
            (int_value pt)
            (clamped (int_value pw) (signal_length_of sig))
            r2 o d)).

(** A machine whose log has one more event ahead of it. *)
Definition front (e : event) (w : world) : world :=
  mkworld (plhs0 w) (e :: log w).

(** A computation that only ever appends to the log: an event ahead of
    the log stays there and changes nothing else. *)
Definition framed {A : Type} (m : gw A) : Prop :=
  forall (e : event) (w : world),
    m (front e w) = (fst (m w), front e (snd (m w))).

(** The same outcome with the truncation warning ahead of the log. *)
Definition warned (r : flow unit * world) : flow unit * world :=
  (fst r,
   mkworld (plhs0 (snd r))
     (Warning "pwvd61" "Window length has been truncated to signal length"
      :: log (snd r))).

(** *** Sample arguments *)

(** A real row of [n] samples. *)
Definition row_vector (n : Z) : MATRIX :=
  mkMATRIX true true false 1 n false 0.

(** A real scalar parameter of value [z]. *)
Definition scalar (z : Z) : MATRIX :=
  mkMATRIX true true false 1 1 true (inject_Z z).

(** A parameter that is an array of several values. *)
Definition not_a_scalar : MATRIX := mkMATRIX true true false 1 3 false 0.

(** A host that grants every matrix, with an engine that reports success. *)
Definition willing : host := mkhost (fun _ _ => true) (fun _ => 0).

(** A host that grants every matrix, with an engine that reports failure. *)
Definition failing_engine : host := mkhost (fun _ _ => true) (fun _ => 1).

(** *** Further vocabulary: orientation, counts, silence *)

(** The same array with its two dimensions exchanged. *)
Definition transposed (s : MATRIX) : MATRIX :=
  mkMATRIX (mxIsNumeric s) (MXFULL s) (mxIsComplex s)
    (mxGetN s) (mxGetM s) (GoodScalar s) (mxGetPr s).

Definition is_error (e : event) : bool :=
  match e with Err _ _ => true | _ => false end.

Definition is_warning (e : event) : bool :=
  match e with Warning _ _ => true | _ => false end.

Definition is_create (e : event) : bool :=
  match e with Create _ _ _ => true | _ => false end.

Definition is_engine (e : event) : bool :=
  match e with Pwvd61 _ _ => true | _ => false end.

(** How many events of a kind a log holds. *)
Definition count (kind : event -> bool) (l : list event) : nat :=
  List.length (filter kind l).

(** A computation that calls [tfsaWarning] on no path. *)
Definition silent {A : Type} (m : gw A) : Prop :=
  forall w : world,
    count is_warning (log (snd (m w))) = count is_warning (log w).

(** The same array with the fractional part of its first element
    dropped. *)
Definition whole (p : MATRIX) : MATRIX :=
  mkMATRIX (mxIsNumeric p) (MXFULL p) (mxIsComplex p)
    (mxGetM p) (mxGetN p) (GoodScalar p) (inject_Z (int_value p)).

(** ** Facts about [int] *)

Lemma wrap_small (z : Z) : CInt.in_range z -> CInt.wrap z = z.
Proof.
  unfold CInt.in_range, CInt.wrap, CInt.half_modulus, CInt.modulus, CInt.width.
  simpl Z.sub. intros H. rewrite Z.mod_small by lia. lia.
Qed.

Lemma shl1_small (x : Z) : - 2 ^ 30 <= x < 2 ^ 30 -> CInt.shl1 x = 2 * x.
Proof.
  intros H. unfold CInt.shl1. rewrite Z.shiftl_mul_pow2 by lia.
  rewrite wrap_small; [ lia | ].
  unfold CInt.in_range, CInt.half_modulus, CInt.width. simpl Z.sub.
  change (2 ^ 31) with (2 * 2 ^ 30). lia.
Qed.

Lemma shl1_zero : CInt.shl1 0 = 0.
Proof. reflexivity. Qed.

Lemma of_size_small (n : Z) : CInt.in_range n -> CInt.of_size n = n.
Proof. apply wrap_small. Qed.

Lemma truncate_int (z : Z) : CInt.truncate (inject_Z z) = z.
Proof.
  unfold CInt.truncate.
  destruct (Qle_bool 0 (inject_Z z)); [ apply Qfloor_Z | apply Qceiling_Z ].
Qed.

Lemma of_double_in_range (d : Q) : CInt.in_range (CInt.of_double d).
Proof.
  unfold CInt.of_double, CInt.in_range.
  destruct (- CInt.half_modulus <=? CInt.truncate d) eqn:Hlo;
    [ destruct (CInt.truncate d <? CInt.half_modulus) eqn:Hhi | ];
    cbn [andb];
    try apply Z.leb_le in Hlo; try apply Z.ltb_lt in Hhi;
    unfold CInt.half_modulus, CInt.width in *; simpl Z.sub in *; lia.
Qed.

Lemma of_double_truncate (d : Q) :
  CInt.in_range (CInt.truncate d) -> CInt.of_double d = CInt.truncate d.
Proof.
  unfold CInt.in_range, CInt.of_double. intros [Hlo Hhi].
  apply Z.leb_le in Hlo. apply Z.ltb_lt in Hhi. rewrite Hlo, Hhi.
  reflexivity.
Qed.

Lemma of_double_int (z : Z) :
  CInt.in_range z -> CInt.of_double (CInt.to_double z) = z.
Proof.
  intros Hz. unfold CInt.to_double.
  rewrite of_double_truncate; rewrite truncate_int; auto.
Qed.

(** ** The rounding loops *)

(** The degree loop is the radix loop without its counter. *)
Lemma deg_loop_r2_loop (fuel : nat) (x o r : Z) :
  deg_loop fuel x r = option_map snd (r2_loop fuel x o r).
Proof.
  revert o r. induction fuel as [| fuel IH]; intros o r; simpl;
    destruct (r <? x); try reflexivity.
  apply IH.
Qed.

Lemma r2_loop_unfold (fuel : nat) (x o r : Z) :
  r2_loop fuel x o r =
  if r <? x then
    match fuel with
    | O => None
    | S fuel' => r2_loop fuel' x (CInt.incr o) (CInt.shl1 r)
    end
  else Some (o, r).
Proof. destruct fuel; reflexivity. Qed.

(** More fuel does not change a result. *)
Lemma r2_loop_fuel_mono (fuel fuel' : nat) (x o r : Z) (v : Z * Z) :
  (fuel <= fuel')%nat ->
  r2_loop fuel x o r = Some v -> r2_loop fuel' x o r = Some v.
Proof.
  revert fuel' o r. induction fuel as [| fuel IH]; intros fuel' o r Hle.
  - simpl. destruct fuel'; simpl; destruct (r <? x); congruence.
  - destruct fuel' as [| fuel']; [ lia | ].
    simpl. destruct (r <? x); [ | congruence ].
    apply IH. lia.
Qed.

(** From [2^k] with count [k], and a bound within reach, the radix loop
    leaves with the first power of two that is not below the bound. *)
Lemma r2_loop_from_pow2 (x : Z) (fuel : nat) (k : Z) :
  x <= 2 ^ 30 ->
  0 <= k <= 30 ->
  30 - k < Z.of_nat fuel ->
  (k = 0 \/ 2 ^ (k - 1) < x) ->
  exists j, k <= j <= 30 /\
            r2_loop fuel x k (2 ^ k) = Some (j, 2 ^ j) /\
            x <= 2 ^ j /\ (j = 0 \/ 2 ^ (j - 1) < x).
Proof.
  intros Hx. revert k. induction fuel as [| fuel IH]; intros k Hk Hfuel Hprev.
  - change (Z.of_nat 0) with 0 in Hfuel. lia.
  - rewrite r2_loop_unfold. destruct (2 ^ k <? x) eqn:Hlt.
    + apply Z.ltb_lt in Hlt.
      assert (k < 30) as Hk30.
      { destruct (Z.eq_dec k 30) as [-> | ]; lia. }
      assert (2 ^ k < 2 ^ 30) as Hpow by (apply Z.pow_lt_mono_r; lia).
      assert (0 < 2 ^ k) as Hpos by (apply Z.pow_pos_nonneg; lia).
      rewrite shl1_small by lia.
      unfold CInt.incr. rewrite wrap_small
        by (unfold CInt.in_range, CInt.half_modulus, CInt.width;
            simpl Z.sub; change (2 ^ 31) with 2147483648; lia).
      replace (2 * 2 ^ k) with (2 ^ (k + 1))
        by (rewrite Z.pow_add_r by lia; lia).
      destruct (IH (k + 1)) as (j & Hj & Hrun & Hge & Hmin); try lia.
      { right. replace (k + 1 - 1) with k by lia. exact Hlt. }
      exists j. repeat split; try lia; assumption.
    + apply Z.ltb_ge in Hlt. exists k. repeat split; try lia; assumption.
Qed.

Lemma pow2_least (x j : Z) :
  0 <= j -> x <= 2 ^ j -> (j = 0 \/ 2 ^ (j - 1) < x) ->
  least_pow2_above x (2 ^ j).
Proof.
  intros Hj Hge Hmin. split; [ exists j; auto | split; [ exact Hge | ] ].
  intros q (i & Hi & ->) Hq.
  destruct Hmin as [-> | Hmin].
  - change (2 ^ 0) with 1. assert (0 < 2 ^ i) by (apply Z.pow_pos_nonneg; lia). lia.
  - apply Z.pow_le_mono_r; [ lia | ].
    assert (2 ^ (j - 1) < 2 ^ i) as Hlt by lia.
    apply Z.pow_lt_mono_r_iff in Hlt; lia.
Qed.

(** The radix loop as the gateway starts it. *)
Lemma r2_loop_spec (x : Z) (fuel : nat) :
  x <= 2 ^ 30 -> (31 <= fuel)%nat ->
  exists j, 0 <= j <= 30 /\ r2_loop fuel x 0 1 = Some (j, 2 ^ j) /\
            least_pow2_above x (2 ^ j).
Proof.
  intros Hx Hfuel.
  destruct (r2_loop_from_pow2 x fuel 0 Hx) as (j & Hj & Hrun & Hge & Hmin);
    try lia.
  exists j. split; [ lia | split; [ exact Hrun | ] ].
  apply pow2_least; [ lia | assumption | assumption ].
Qed.

(** The degree loop as the gateway starts it. *)
Lemma deg_loop_spec (x : Z) (fuel : nat) :
  x <= 2 ^ 30 -> (31 <= fuel)%nat ->
  exists j, 0 <= j <= 30 /\ deg_loop fuel x 1 = Some (2 ^ j) /\
            least_pow2_above x (2 ^ j).
Proof.
  intros Hx Hfuel.
  destruct (r2_loop_spec x fuel Hx Hfuel) as (j & Hj & Hrun & Hleast).
  exists j. split; [ exact Hj | split; [ | exact Hleast ] ].
  rewrite (deg_loop_r2_loop fuel x 0 1), Hrun. reflexivity.
Qed.

(** *** Bounds out of reach *)

Lemma r2_loop_stuck_at_zero (x : Z) (fuel : nat) (o : Z) :
  0 < x -> r2_loop fuel x o 0 = None.
Proof.
  intros Hx. revert o.
  induction fuel as [| fuel IH]; intros o; rewrite r2_loop_unfold;
    destruct (0 <? x) eqn:Hlt; try reflexivity;
    try (apply Z.ltb_ge in Hlt; lia).
  rewrite shl1_zero. apply IH.
Qed.

Lemma r2_loop_stuck_at_min (x : Z) (fuel : nat) (o : Z) :
  0 < x -> r2_loop fuel x o (- 2 ^ 31) = None.
Proof.
  intros Hx. destruct fuel as [| fuel]; rewrite r2_loop_unfold;
    destruct (- 2 ^ 31 <? x) eqn:Hlt; try reflexivity;
    try (apply Z.ltb_ge in Hlt; lia).
  change (CInt.shl1 (- 2 ^ 31)) with 0.
  apply r2_loop_stuck_at_zero. exact Hx.
Qed.

(** Beyond [2^30] no power of two is left in [int]: the doubling wraps
    to [-2^31], then to [0], and stays there. *)
Lemma r2_loop_spins (x : Z) (n : nat) :
  2 ^ 30 < x ->
  forall (k : Z) (fuel : nat) (o : Z),
    k = 30 - Z.of_nat n -> 0 <= k ->
    r2_loop fuel x o (2 ^ k) = None.
Proof.
  intros Hx. induction n as [| n IH]; intros k fuel o Hk Hk0.
  - replace k with 30 by lia.
    destruct fuel as [| fuel]; rewrite r2_loop_unfold;
      destruct (2 ^ 30 <? x) eqn:Hlt; try reflexivity;
      try (apply Z.ltb_ge in Hlt; lia).
    change (CInt.shl1 (2 ^ 30)) with (- 2 ^ 31).
    apply r2_loop_stuck_at_min. lia.
  - assert (2 ^ k < 2 ^ 30) as Hpow by (apply Z.pow_lt_mono_r; lia).
    assert (0 < 2 ^ k) as Hpos by (apply Z.pow_pos_nonneg; lia).
    destruct fuel as [| fuel]; rewrite r2_loop_unfold;
      destruct (2 ^ k <? x) eqn:Hlt; try reflexivity;
      try (apply Z.ltb_ge in Hlt; lia).
    rewrite shl1_small by lia.
    replace (2 * 2 ^ k) with (2 ^ (k + 1))
      by (rewrite Z.pow_add_r by lia; lia).
    apply IH; lia.
Qed.

Lemma r2_loop_diverges (x : Z) (fuel : nat) :
  2 ^ 30 < x -> r2_loop fuel x 0 1 = None.
Proof.
  intros Hx.
  exact (r2_loop_spins x 30 Hx 0 fuel 0 eq_refl (Z.le_refl 0)).
Qed.

Lemma deg_loop_diverges (x : Z) (fuel : nat) :
  2 ^ 30 < x -> deg_loop fuel x 1 = None.
Proof.
  intros Hx. rewrite (deg_loop_r2_loop fuel x 0 1), r2_loop_diverges by exact Hx.
  reflexivity.
Qed.

(** ** The two shape expressions *)

Lemma nplts_of_div (a b : Z) : 0 < b -> nplts_of a b = - ((- a) / b).
Proof.
  intros Hb. unfold nplts_of, CInt.to_double, Qceiling.
  f_equal. rewrite Zdiv_Qdiv. apply Qfloor_comp.
  rewrite inject_Z_opp. unfold Qdiv. ring.
Qed.

Lemma nplts_of_ceiling (a b : Z) : 0 < b -> is_ceiling a b (nplts_of a b).
Proof.
  intros Hb. rewrite nplts_of_div by exact Hb. unfold is_ceiling.
  pose proof (Z.div_mod (- a) b ltac:(lia)) as Hdm.
  pose proof (Z.mod_pos_bound (- a) b Hb) as Hmod.
  nia.
Qed.

Lemma nplts_of_cast (a b : Z) :
  1 <= b <= a -> CInt.in_range a ->
  CInt.of_double (CInt.to_double (nplts_of a b)) = nplts_of a b.
Proof.
  intros Hb Ha. apply of_double_int.
  pose proof (nplts_of_ceiling a b ltac:(lia)) as [Hlo Hhi].
  unfold CInt.in_range in *. split; nia.
Qed.

Lemma half_rows_div (r : Z) : 0 <= r <= 2 ^ 31 -> half_rows r = r / 2.
Proof.
  intros Hr. unfold half_rows, CInt.to_double.
  assert (CInt.truncate (inject_Z r * (1 # 2)) = r / 2) as Htr.
  { unfold CInt.truncate.
    replace (Qle_bool 0 (inject_Z r * (1 # 2))) with true.
    - unfold Qfloor, Qmult, inject_Z. simpl. rewrite Z.mul_1_r. reflexivity.
    - symmetry. apply Qle_bool_iff. unfold Qle, Qmult, inject_Z. simpl. lia. }
  rewrite of_double_truncate; rewrite Htr; [ reflexivity | ].
  unfold CInt.in_range, CInt.half_modulus, CInt.width. simpl Z.sub.
  assert (0 <= r / 2) by (apply Z.div_pos; lia).
  assert (r / 2 < 2 ^ 31) by (apply Z.div_lt_upper_bound; lia).
  lia.
Qed.

Lemma half_rows_pow2 (j : Z) : 0 <= j <= 30 -> half_rows (2 ^ j) = 2 ^ j / 2.
Proof.
  intros Hj. apply half_rows_div.
  assert (0 < 2 ^ j) by (apply Z.pow_pos_nonneg; lia).
  assert (2 ^ j <= 2 ^ 30) by (apply Z.pow_le_mono_r; lia).
  lia.
Qed.

Lemma Qceiling_unique (y : Q) (n : Z) :
  (inject_Z (n - 1) < y)%Q -> (y <= inject_Z n)%Q -> Qceiling y = n.
Proof.
  intros Hlo Hhi.
  pose proof (Qle_ceiling y) as Hc1. pose proof (Qceiling_lt y) as Hc2.
  assert (inject_Z (n - 1) < inject_Z (Qceiling y))%Q as H1
    by (eapply Qlt_le_trans; eauto).
  assert (inject_Z (Qceiling y - 1) < inject_Z n)%Q as H2
    by (eapply Qlt_le_trans; eauto).
  rewrite <- Zlt_Qlt in H1, H2. lia.
Qed.

(** *** Why the quotient may be taken exactly

    [nplts_of] divides in [Q]; the routine divides two doubles.  Any
    rounding that is monotone, leaves the integers up to [2^53] alone
    and, from 1 on, errs by at most one part in [2^53], as rounding to
    nearest in binary64 does, gives the same ceiling on the values the
    gateway divides. *)
Section Rounding.

Variable rnd : Q -> Q.

Hypothesis rnd_monotone : forall x y : Q, (x <= y)%Q -> (rnd x <= rnd y)%Q.

Hypothesis rnd_integer :
  forall z : Z, Z.abs z <= 2 ^ 53 -> (rnd (inject_Z z) == inject_Z z)%Q.

Hypothesis rnd_error :
  forall x : Q, (1 <= x)%Q -> (x - x * (1 # 2 ^ 53) <= rnd x)%Q.

Lemma ceil_of_rounded_quotient (a b : Z) :
  0 < b -> b <= a -> a < 2 ^ 31 ->
  Qceiling (rnd (CInt.to_double a / CInt.to_double b)) = nplts_of a b.
Proof.
  intros Hb Hab Ha. unfold CInt.to_double.
  pose proof (nplts_of_ceiling a b Hb) as [Hlo Hhi].
  set (n := nplts_of a b) in *.
  assert (1 <= n <= a) as Hn by nia.
  set (x := (inject_Z a / inject_Z b)%Q).
  assert (0 < inject_Z b)%Q as HbQ by (rewrite <- (Zlt_Qlt 0); exact Hb).
  assert (x <= inject_Z n)%Q as Hxn.
  { unfold x. apply Qle_shift_div_r; [ exact HbQ | ].
    rewrite <- inject_Z_mult, <- Zle_Qle. exact Hhi. }
  apply Qceiling_unique.
  - eapply Qlt_le_trans; [ | apply rnd_error ].
    + unfold x.
      assert (inject_Z a / inject_Z b - inject_Z a / inject_Z b * (1 # 2 ^ 53)
              == inject_Z a * (inject_Z (2 ^ 53) - 1)
                 / (inject_Z b * inject_Z (2 ^ 53)))%Q as ->.
      { change (1 # 2 ^ 53)%Q with (/ inject_Z (2 ^ 53))%Q.
        field. split.
        - intro H. discriminate H.
        - intro H. rewrite H in HbQ. apply (Qlt_irrefl 0). exact HbQ. }
      change (inject_Z (2 ^ 53) - 1)%Q with (inject_Z (2 ^ 53 - 1)).
      rewrite <- !inject_Z_mult.
      apply Qlt_shift_div_l.
      * rewrite <- (Zlt_Qlt 0). lia.
      * rewrite <- inject_Z_mult, <- Zlt_Qlt. nia.
    + unfold x. apply Qle_shift_div_l; [ exact HbQ | ].
      rewrite Qmult_1_l. rewrite <- Zle_Qle. exact Hab.
  - rewrite <- (rnd_integer n) by lia. apply rnd_monotone. exact Hxn.
Qed.

End Rounding.

(** ** Running the gateway *)

Ltac gw_simpl :=
  cbn [bind ret skip return_ emit fail tfsaErr tfsaWarning winNTcheck
       of_loop set_plhs0 MXCREATEFULL pwvd61 fresh plhs0 log app fst snd
       negb orb andb nth].

(** Settles a test of the gateway from the hypotheses at hand. *)
Ltac bool_solve :=
  repeat match goal with
         | H : _ = true |- _ => rewrite H
         | H : _ = false |- _ => rewrite H
         end;
  cbn [negb orb andb];
  first [ reflexivity
        | apply Z.ltb_lt; lia
        | apply Z.ltb_ge; lia
        | rewrite Z.gtb_ltb; apply Z.ltb_lt; lia
        | rewrite Z.gtb_ltb; apply Z.ltb_ge; lia
        | apply Z.eqb_eq; lia
        | apply Z.eqb_neq; lia ].

(** Takes the branch of the next [if] of the gateway that the
    hypotheses select. *)
Ltac gw_branch :=
  match goal with
  | |- context [bind (if ?c then _ else _) _] =>
      first [ replace c with false by (symmetry; bool_solve)
            | replace c with true by (symmetry; bool_solve) ]
  end;
  gw_simpl.

Lemma in_range_small (n : Z) : 0 <= n < 2 ^ 31 -> CInt.in_range n.
Proof.
  unfold CInt.in_range, CInt.half_modulus, CInt.width. simpl Z.sub. lia.
Qed.

Lemma rejected_shape_vector (s : MATRIX) :
  vector_ge2 s -> rejected_shape s = false /\ 2 <= signal_length_of s.
Proof.
  unfold vector_ge2, rejected_shape, signal_length_of.
  intros [[HM HN] | [HN HM]];
    rewrite (of_size_small (mxGetM s)), (of_size_small (mxGetN s))
      by (apply in_range_small; lia).
  - rewrite HM. replace (mxGetN s =? 1) with false
      by (symmetry; apply Z.eqb_neq; lia).
    replace (1 >? mxGetN s) with false by (symmetry; bool_solve).
    split; [ reflexivity | lia ].
  - rewrite HN. replace (mxGetM s =? 1) with false
      by (symmetry; apply Z.eqb_neq; lia).
    replace (mxGetM s >? 1) with true by (symmetry; bool_solve).
    split; [ reflexivity | lia ].
Qed.

(** For such a vector the length the gateway reads is its length. *)
Lemma signal_length_of_vector (s : MATRIX) :
  vector_ge2 s -> signal_length_of s = Z.max (mxGetM s) (mxGetN s).
Proof.
  unfold vector_ge2, signal_length_of.
  intros [[HM HN] | [HN HM]];
    rewrite (of_size_small (mxGetM s)), (of_size_small (mxGetN s))
      by (apply in_range_small; lia);
    rewrite Z.gtb_ltb;
    destruct (mxGetN s <? mxGetM s) eqn:Hlt;
    [ apply Z.ltb_lt in Hlt | apply Z.ltb_ge in Hlt
    | apply Z.ltb_lt in Hlt | apply Z.ltb_ge in Hlt ]; lia.
Qed.

(** A call that passes every check, with an order and a transform
    length within reach of the doubling, goes on to the allocation and
    the engine with the normalised parameters. *)
Lemma run_validated (h : host) (fuel : nat) (nlhs : Z)
  (sig pw pt pd : MATRIX) (rest : list MATRIX) :
  validated nlhs sig pw pt pd rest ->
  int_value pd <= 2 ^ 30 ->
  effective_fft rest (clamped (int_value pw) (signal_length_of sig)) <= 2 ^ 30 ->
  (31 <= fuel)%nat ->
  exists i j,
    0 <= i <= 30 /\ 0 <= j <= 30 /\
    least_pow2_above (int_value pd) (2 ^ i) /\
    least_pow2_above
      (effective_fft rest (clamped (int_value pw) (signal_length_of sig)))
      (2 ^ j) /\
    run h fuel nlhs (sig :: pw :: pt :: pd :: rest) =
    computation h nlhs
      (truncation_warning (int_value pw) (signal_length_of sig))
      (half_rows (2 ^ j))
      (nplts_of (signal_length_of sig) (int_value pt))
      (Engine.mkcall (negb (mxIsComplex sig)) (signal_length_of sig)
         (nplts_of (signal_length_of sig) (int_value pt))
         (int_value pt)
         (clamped (int_value pw) (signal_length_of sig))
         (2 ^ j) j (2 ^ i)).
Proof.
  intros [Hnlhs Hnum Hfull Hshape Hpw Hwl Hpt Hts Hpd Hfifth] Hdeg Hfft Hfuel.
  destruct (deg_loop_spec (int_value pd) fuel Hdeg Hfuel)
    as (i & Hi & Hdegrun & Hdegleast).
  destruct (r2_loop_spec _ fuel Hfft Hfuel) as (j & Hj & Hr2run & Hr2least).
  exists i, j. repeat (split; [ assumption | ]).
  unfold run, mexFunction.
  assert (nrhs_of (sig :: pw :: pt :: pd :: rest) = 4 /\ rest = [] \/
          nrhs_of (sig :: pw :: pt :: pd :: rest) = 5 /\ exists pf, rest = [pf])
    as Hn.
  { destruct rest as [| pf [| ? ?]]; [ left | right | destruct Hfifth ];
      split; eauto. }
  unfold rejected_shape in Hshape.
  fold (signal_length_of sig).
  do 7 gw_branch. fold (signal_length_of sig).
  unfold truncation_warning, clamped in *.
  destruct (int_value pw >? signal_length_of sig) eqn:Hclamp; gw_simpl;
    do 4 gw_branch; rewrite Hdegrun; gw_simpl;
    (destruct Hn as [[Hn ->] | [Hn [pf ->]]]; rewrite Hn;
     unfold effective_fft, requested_fft in *;
     cbn [Z.eqb Pos.eqb nth fifth_ok] in *; gw_simpl;
     [ | destruct Hfifth as [Hpf Hfft0]; gw_branch ];
     gw_branch; rewrite Hr2run; gw_simpl; unfold computation;
     (destruct (create_ok h _ _); gw_simpl; [ | reflexivity ]);
     destruct (pwvd61_status h _ =? 0); gw_simpl; reflexivity).
Qed.

(** Splits on the next test, loop or answer the gateway meets. *)
Ltac gw_case :=
  match goal with
  | |- context [bind (if ?c then _ else _) _ ?w] => destruct c eqn:?
  | |- context [bind (bind (if ?c then _ else _) _) _ ?w] => destruct c eqn:?
  | |- context [bind (of_loop ?r) _ ?w] => destruct r as [?v |] eqn:?
  end;
  gw_simpl.

Ltac gw_rejected :=
  first
    [ apply (Out_rejected _ _ _ _ []); [ left; reflexivity | ]
    | apply (Out_rejected _ _ _ _
               [Warning "pwvd61"
                  "Window length has been truncated to signal length"]);
      [ right; reflexivity | ] ];
  cbn [In validation_messages]; tauto.

Ltac gw_spinning :=
  first [ apply Out_spinning; left; reflexivity
        | apply Out_spinning; right; reflexivity ].

Lemma validated_of_tests (nlhs : Z) (sig pw pt pd : MATRIX)
  (rest : list MATRIX) :
  (nlhs >? 1) = false ->
  negb (mxIsNumeric sig) || negb (MXFULL sig) = false ->
  rejected_shape sig = false ->
  negb (GoodScalar pw) = false ->
  (int_value pw <? 1) = false ->
  negb (GoodScalar pt) = false ->
  (int_value pt <? 1) = false ->
  (int_value pt >? signal_length_of sig) = false ->
  negb (GoodScalar pd) = false ->
  fifth_ok rest ->
  validated nlhs sig pw pt pd rest.
Proof.
  intros Hnlhs Hsig Hshape Hpw Hwl Hpt Hts1 Hts2 Hpd Hrest.
  apply orb_false_elim in Hsig. destruct Hsig as [Hnum Hfull].
  apply negb_false_iff in Hnum, Hfull, Hpw, Hpt, Hpd.
  rewrite Z.gtb_ltb in Hnlhs, Hts2.
  apply Z.ltb_ge in Hnlhs, Hts2, Hwl, Hts1.
  constructor; auto.
Qed.

Lemma outcome_computed (h : host) (fuel : nat) (nlhs : Z)
  (sig pw pt pd : MATRIX) (rest : list MATRIX) (d o r2 : Z)
  (res : flow unit * world) :
  validated nlhs sig pw pt pd rest ->
  deg_loop fuel (int_value pd) 1 = Some d ->
  r2_loop fuel
    (effective_fft rest (clamped (int_value pw) (signal_length_of sig)))
    0 1 = Some (o, r2) ->
  res = computation h nlhs
          (truncation_warning (int_value pw) (signal_length_of sig))
          (half_rows r2)
          (nplts_of (signal_length_of sig) (int_value pt))
          (Engine.mkcall (negb (mxIsComplex sig)) (signal_length_of sig)
             (nplts_of (signal_length_of sig) (int_value pt))
             (int_value pt)
             (clamped (int_value pw) (signal_length_of sig))
             r2 o d) ->
  outcome h fuel nlhs (sig :: pw :: pt :: pd :: rest) res.
Proof.
  intros Hv Hd Hr ->. eapply Out_computed; eauto.
Qed.

Lemma rest_of_arity (sig pw pt pd : MATRIX) (rest : list MATRIX) :
  (nrhs_of (sig :: pw :: pt :: pd :: rest) >? 5) = false ->
  if nrhs_of (sig :: pw :: pt :: pd :: rest) =? 5
  then exists pf, rest = [pf]
  else rest = [].
Proof.
  unfold nrhs_of. rewrite Z.gtb_ltb. intros H. apply Z.ltb_ge in H.
  destruct rest as [| pf [| pg rest]]; cbn [List.length] in *.
  - reflexivity.
  - exists pf. reflexivity.
  - lia.
Qed.

(** Every call of the gateway ends in one of the three ways. *)
Lemma run_outcome (h : host) (fuel : nat) (nlhs : Z) (prhs : list MATRIX) :
  outcome h fuel nlhs prhs (run h fuel nlhs prhs).
Proof.
  unfold run, mexFunction.
  gw_case; [ gw_rejected | ].
  gw_case; [ gw_rejected | ].
  gw_case; [ gw_rejected | ].
  destruct prhs as [| sig [| pw [| pt [| pd rest]]]];
    try (unfold nrhs_of in *; cbn [List.length] in *;
         repeat match goal with H : (_ <? _) = false |- _ =>
                  apply Z.ltb_ge in H end; lia).
  cbn [nth].
  gw_case; [ gw_rejected | ].
  gw_case; [ gw_rejected | ].
  gw_case; [ gw_rejected | ].
  gw_case; [ gw_rejected | ].
  fold (signal_length_of sig).
  match goal with
  | H : (nrhs_of _ >? 5) = false |- _ =>
      pose proof (rest_of_arity _ _ _ _ _ H) as Hrest
  end.
  gw_case;
    (gw_case; [ gw_rejected | ]);
    (gw_case; [ gw_rejected | ]);
    (gw_case; [ gw_rejected | ]);
    (gw_case; [ gw_rejected | ]);
    (gw_case; [ | gw_spinning ]);
    (destruct (nrhs_of (sig :: pw :: pt :: pd :: rest) =? 5);
     [ destruct Hrest as [pf ->]; cbn [nth]; gw_case; [ gw_rejected | ]
     | subst rest; gw_simpl ]);
    (gw_case; [ gw_rejected | ]);
    (gw_case; [ | gw_spinning ]);
    match goal with
    | Hd : deg_loop _ _ _ = Some ?d,
      Hr : r2_loop _ _ _ _ = Some ?p,
      Hc : (int_value pw >? signal_length_of sig) = _ |- _ =>
        destruct p as [o r2]; cbn [fst snd];
        apply (outcome_computed h fuel nlhs sig pw pt pd _ d o r2);
        [ apply validated_of_tests; try assumption;
          cbn [fifth_ok];
          first [ exact I
                | split; [ apply negb_false_iff | apply Z.ltb_ge ];
                  assumption ]
        | assumption
        | unfold effective_fft, requested_fft, clamped; rewrite Hc;
          assumption
        | unfold computation, truncation_warning, clamped; rewrite Hc;
          (destruct (create_ok h _ _); gw_simpl; [ | reflexivity ]);
          destruct (pwvd61_status h _ =? 0); gw_simpl; reflexivity ]
    end.
Qed.

(** The sample scalars hold the integer they are made from, when it is
    an [int]. *)
Lemma int_value_scalar (z : Z) : CInt.in_range z -> int_value (scalar z) = z.
Proof. apply of_double_int. Qed.

(** What the casts leave of values that are not [int]s: a parameter of
    [3 * 10^9] is read as [-2^31], and is refused as a window length; a
    row of [2^32 + 16] samples is read as one of 16, and one of
    [2^32 + 1] as a 1-by-1 array. *)
Lemma beyond_int_range :
  int_value (scalar 3000000000) = - 2 ^ 31 /\
  log (snd (run willing 31 1
              [row_vector 16; scalar 3000000000; scalar 2; scalar 2]))
  = [Err "pwvd61" "Window length must be greater than zero"; NTcheck 1] /\
  signal_length_of (row_vector (2 ^ 32 + 16)) = 16 /\
  rejected_shape (row_vector (2 ^ 32 + 1)) = true.
Proof. repeat split; vm_compute; reflexivity. Qed.

(** A call that passes every check but whose order or transform length
    lies beyond [2^30] stays in the doubling loop, whatever the fuel. *)
Lemma run_spinning (h : host) (fuel : nat) (nlhs : Z)
  (sig pw pt pd : MATRIX) (rest : list MATRIX) :
  validated nlhs sig pw pt pd rest ->
  2 ^ 30 < int_value pd \/
  2 ^ 30 < effective_fft rest (clamped (int_value pw) (signal_length_of sig)) ->
  run h fuel nlhs (sig :: pw :: pt :: pd :: rest) =
  (Spinning,
   mkworld None (truncation_warning (int_value pw) (signal_length_of sig))).
Proof.
  intros [Hnlhs Hnum Hfull Hshape Hpw Hwl Hpt Hts Hpd Hfifth] Hfar.
  unfold run, mexFunction.
  assert (nrhs_of (sig :: pw :: pt :: pd :: rest) = 4 /\ rest = [] \/
          nrhs_of (sig :: pw :: pt :: pd :: rest) = 5 /\ exists pf, rest = [pf])
    as Hn.
  { destruct rest as [| pf [| ? ?]]; [ left | right | destruct Hfifth ];
      split; eauto. }
  unfold rejected_shape in Hshape.
  do 7 gw_branch. fold (signal_length_of sig).
  unfold truncation_warning, clamped in *.
  destruct (int_value pw >? signal_length_of sig) eqn:Hclamp; gw_simpl;
    do 4 gw_branch;
    (destruct (deg_loop fuel (int_value pd) 1) as [d |] eqn:Hd; gw_simpl;
     [ | reflexivity ]);
    (destruct Hfar as [Hfar | Hfar];
     [ rewrite deg_loop_diverges in Hd by exact Hfar; discriminate | ]);
    (destruct Hn as [[Hn ->] | [Hn [pf ->]]]; rewrite Hn;
     unfold effective_fft, requested_fft in *;
     cbn [Z.eqb Pos.eqb nth fifth_ok] in *; gw_simpl;
     [ | destruct Hfifth as [Hpf Hfft0]; gw_branch ];
     gw_branch; rewrite r2_loop_diverges by exact Hfar; gw_simpl;
     reflexivity).
Qed.

(** Settles a closed side condition by evaluation. *)
Ltac by_eval :=
  first [ reflexivity
        | vm_compute; intuition congruence
        | cbn; lia ].

(** Replaces a closed term by its value. *)
Ltac gw_value t := let v := eval vm_compute in t in change t with v.

(** Runs the gateway on arguments that are given in full, up to the
    answers of the host. *)
Ltac gw_eval :=
  unfold mexFunction;
  repeat first
    [ gw_branch
    | match goal with
      | |- context [of_loop ?r] =>
          let v := eval vm_compute in r in
          replace r with v by reflexivity
      end; gw_simpl ];
  repeat match goal with
         | |- context [if CInt.of_size (mxGetM ?s) >? _ then _ else _] =>
             fold (signal_length_of s)
         end;
  repeat match goal with
         | |- context [nplts_of ?a ?b] => gw_value (nplts_of a b)
         | |- context [half_rows ?a] => gw_value (half_rows a)
         | |- context [int_value ?a] => gw_value (int_value a)
         | |- context [signal_length_of ?a] => gw_value (signal_length_of a)
         | |- context [mxIsComplex ?a] => gw_value (mxIsComplex a)
         end;
  cbn [negb].

(** ** Rejections *)

(** What a rejected call leaves behind: the message, the call of
    [winNTcheck], an empty output slot. *)
Lemma rejected_quiet (pre : list event) (msg : string) (nlhs : Z) :
  quiet pre ->
  requested_shape (pre ++ [Err "pwvd61" msg; NTcheck nlhs]) = None /\
  engine_call (pre ++ [Err "pwvd61" msg; NTcheck nlhs]) = None.
Proof. intros [-> | ->]; split; reflexivity. Qed.

(** C9. The gateway rejects a call with fewer than 4 or more than 5
    right-hand arguments (fewer than 3 or more than 4 parameters beyond
    the signal), and a call that asks for more than one output, and it
    does so before it looks at any argument: the outcome is the same
    whatever the arguments hold, whatever the host would answer. *)
Theorem arity_rejected_first (h : host) (fuel : nat) (nlhs : Z)
  (prhs : list MATRIX) :
  (nrhs_of prhs < 4 ->
   run h fuel nlhs prhs =
   (Returned,
    mkworld None [Err "pwvd61" "Not enough input arguments"; NTcheck nlhs]))
  /\
  (5 < nrhs_of prhs ->
   run h fuel nlhs prhs =
   (Returned,
    mkworld None [Err "pwvd61" "Too many input arguments"; NTcheck nlhs]))
  /\
  (4 <= nrhs_of prhs <= 5 -> 1 < nlhs ->
   run h fuel nlhs prhs =
   (Returned,
    mkworld None [Err "pwvd61" "Too many output arguments"; NTcheck nlhs]))
  /\
  (nrhs_of prhs < 4 \/ 5 < nrhs_of prhs \/ 1 < nlhs ->
   forall (h' : host) (fuel' : nat) (prhs' : list MATRIX),
     nrhs_of prhs' = nrhs_of prhs ->
     run h' fuel' nlhs prhs' = run h fuel nlhs prhs).
Proof.
  assert (forall h fuel prhs, nrhs_of prhs < 4 ->
            run h fuel nlhs prhs =
            (Returned,
             mkworld None
               [Err "pwvd61" "Not enough input arguments"; NTcheck nlhs]))
    as Hfew.
  { clear. intros h fuel prhs H. unfold run, mexFunction.
    gw_branch. reflexivity. }
  assert (forall h fuel prhs, 5 < nrhs_of prhs ->
            run h fuel nlhs prhs =
            (Returned,
             mkworld None
               [Err "pwvd61" "Too many input arguments"; NTcheck nlhs]))
    as Hmany.
  { clear. intros h fuel prhs H. unfold run, mexFunction.
    do 2 gw_branch. reflexivity. }
  assert (forall h fuel prhs, 4 <= nrhs_of prhs <= 5 -> 1 < nlhs ->
            run h fuel nlhs prhs =
            (Returned,
             mkworld None
               [Err "pwvd61" "Too many output arguments"; NTcheck nlhs]))
    as Hout.
  { clear. intros h fuel prhs H H'. unfold run, mexFunction.
    do 3 gw_branch. reflexivity. }
  repeat split; auto.
  intros Hbad h' fuel' prhs' Hsame.
  destruct (Z.lt_ge_cases (nrhs_of prhs) 4) as [H4 | H4].
  { rewrite !Hfew by lia. reflexivity. }
  destruct (Z.lt_ge_cases 5 (nrhs_of prhs)) as [H5 | H5].
  { rewrite !Hmany by lia. reflexivity. }
  rewrite !Hout by lia. reflexivity.
Qed.

Lemma arity_rejected_first_witness :
  run willing 31 1 [] =
  (Returned,
   mkworld None [Err "pwvd61" "Not enough input arguments"; NTcheck 1])
  /\
  run willing 31 1
    [row_vector 16; scalar 4; scalar 2; scalar 2; scalar 8; scalar 0] =
  (Returned,
   mkworld None [Err "pwvd61" "Too many input arguments"; NTcheck 1])
  /\
  run willing 31 2 [row_vector 16; scalar 4; scalar 2; scalar 2] =
  (Returned,
   mkworld None [Err "pwvd61" "Too many output arguments"; NTcheck 2]).
Proof.
  split; [ | split ].
  - apply (proj1 (arity_rejected_first willing 31 1 [])). reflexivity.
  - apply (proj1 (proj2 (arity_rejected_first willing 31 1
             [row_vector 16; scalar 4; scalar 2; scalar 2; scalar 8;
              scalar 0]))).
    reflexivity.
  - apply (proj1 (proj2 (proj2 (arity_rejected_first willing 31 2
             [row_vector 16; scalar 4; scalar 2; scalar 2])))).
    + unfold nrhs_of; simpl; lia.
    + lia.
Defined.

(** C7. When the first two arguments pass their checks and the time
    resolution is a good scalar that [(int)] reads as at least 1 and
    above the signal length, the call is rejected with "Time resolution must be no
    greater than signal length" (the out-of-range error): nothing is
    allocated, the engine is not called and the output slot stays
    empty. *)
Theorem time_res_above_signal_length (h : host) (fuel : nat) (nlhs : Z)
  (sig pw pt pd : MATRIX) (rest : list MATRIX) :
  (List.length rest <= 1)%nat ->
  nlhs <= 1 ->
  mxIsNumeric sig = true -> MXFULL sig = true ->
  rejected_shape sig = false ->
  GoodScalar pw = true -> 1 <= int_value pw ->
  GoodScalar pt = true -> 1 <= int_value pt ->
  signal_length_of sig < int_value pt ->
  run h fuel nlhs (sig :: pw :: pt :: pd :: rest) =
  (Returned,
   mkworld None
     (truncation_warning (int_value pw) (signal_length_of sig) ++
      [Err "pwvd61" "Time resolution must be no greater than signal length";
       NTcheck nlhs])).
Proof.
  intros Hrest Hnlhs Hnum Hfull Hshape Hpw Hwl Hpt Hts1 Hts2.
  unfold run, mexFunction.
  assert (4 <= nrhs_of (sig :: pw :: pt :: pd :: rest) <= 5) as Hn
    by (unfold nrhs_of; cbn [List.length]; lia).
  unfold rejected_shape in Hshape.
  do 7 gw_branch. fold (signal_length_of sig).
  unfold truncation_warning.
  destruct (int_value pw >? signal_length_of sig); gw_simpl;
    do 3 gw_branch; reflexivity.
Qed.

Lemma time_res_above_signal_length_witness :
  run willing 31 1 [row_vector 16; scalar 4; scalar 17; scalar 2] =
  (Returned,
   mkworld None
     [Err "pwvd61" "Time resolution must be no greater than signal length";
      NTcheck 1]).
Proof.
  apply (time_res_above_signal_length willing 31 1
           (row_vector 16) (scalar 4) (scalar 17) (scalar 2) []);
    by_eval.
Defined.

(** C5. With the earlier arguments in order, a window length below 1
    (in particular 0), a time resolution below 1 (in particular 0) and
    a transform length below 0 (in particular -1), each as [(int)] reads
    it, are each rejected with the message of that parameter; the log holds no allocation and no
    engine call, and the output slot stays empty. *)
Theorem nonpositive_parameters_rejected (h : host) (fuel : nat) (nlhs : Z)
  (sig pw pt pd pf : MATRIX) (rest : list MATRIX) :
  (List.length rest <= 1)%nat ->
  nlhs <= 1 ->
  mxIsNumeric sig = true -> MXFULL sig = true ->
  rejected_shape sig = false ->
  GoodScalar pw = true ->
  (int_value pw < 1 ->
   run h fuel nlhs (sig :: pw :: pt :: pd :: rest) =
   (Returned,
    mkworld None
      [Err "pwvd61" "Window length must be greater than zero";
       NTcheck nlhs]))
  /\
  (1 <= int_value pw -> GoodScalar pt = true -> int_value pt < 1 ->
   run h fuel nlhs (sig :: pw :: pt :: pd :: rest) =
   (Returned,
    mkworld None
      (truncation_warning (int_value pw) (signal_length_of sig) ++
       [Err "pwvd61" "Time resolution must be greater than zero";
        NTcheck nlhs])))
  /\
  (1 <= int_value pw -> GoodScalar pt = true ->
   1 <= int_value pt <= signal_length_of sig ->
   GoodScalar pd = true -> int_value pd <= 2 ^ 30 -> (31 <= fuel)%nat ->
   GoodScalar pf = true -> int_value pf < 0 ->
   run h fuel nlhs [sig; pw; pt; pd; pf] =
   (Returned,
    mkworld None
      (truncation_warning (int_value pw) (signal_length_of sig) ++
       [Err "pwvd61" "FFT length must be greater than zero";
        NTcheck nlhs]))).
Proof.
  intros Hrest Hnlhs Hnum Hfull Hshape Hpw.
  assert (4 <= nrhs_of (sig :: pw :: pt :: pd :: rest) <= 5) as Hn
    by (unfold nrhs_of; cbn [List.length]; lia).
  unfold rejected_shape in Hshape.
  split; [ | split ].
  - intros Hwl. unfold run, mexFunction.
    do 7 gw_branch. reflexivity.
  - intros Hwl Hpt Hts. unfold run, mexFunction.
    do 7 gw_branch. fold (signal_length_of sig).
    unfold truncation_warning.
    destruct (int_value pw >? signal_length_of sig); gw_simpl;
      do 2 gw_branch; reflexivity.
  - intros Hwl Hpt Hts Hpd Hdeg Hfuel Hpf Hfft. clear Hn.
    assert (nrhs_of [sig; pw; pt; pd; pf] = 5) as Hn by reflexivity.
    destruct (deg_loop_spec (int_value pd) fuel Hdeg Hfuel)
      as (i & Hi & Hdegrun & Hdegleast).
    unfold run, mexFunction.
    do 7 gw_branch. fold (signal_length_of sig).
    unfold truncation_warning.
    destruct (int_value pw >? signal_length_of sig); gw_simpl;
      do 4 gw_branch; rewrite Hdegrun; gw_simpl;
      rewrite Hn; cbn [Z.eqb Pos.eqb nth]; gw_simpl;
      do 2 gw_branch; reflexivity.
Qed.

Lemma nonpositive_parameters_rejected_witness :
  run willing 31 1 [row_vector 16; scalar 0; scalar 2; scalar 2] =
  (Returned,
   mkworld None
     [Err "pwvd61" "Window length must be greater than zero"; NTcheck 1])
  /\
  run willing 31 1 [row_vector 16; scalar 4; scalar 0; scalar 2] =
  (Returned,
   mkworld None
     [Err "pwvd61" "Time resolution must be greater than zero"; NTcheck 1])
  /\
  run willing 31 1
    [row_vector 16; scalar 4; scalar 2; scalar 2; scalar (-1)] =
  (Returned,
   mkworld None
     [Err "pwvd61" "FFT length must be greater than zero"; NTcheck 1]).
Proof.
  split; [ | split ].
  - apply (proj1 (nonpositive_parameters_rejected willing 31 1
             (row_vector 16) (scalar 0) (scalar 2) (scalar 2) (scalar 0) []
             ltac:(by_eval) ltac:(by_eval) eq_refl eq_refl eq_refl eq_refl)).
    by_eval.
  - apply (proj1 (proj2 (nonpositive_parameters_rejected willing 31 1
             (row_vector 16) (scalar 4) (scalar 0) (scalar 2) (scalar 0) []
             ltac:(by_eval) ltac:(by_eval) eq_refl eq_refl eq_refl eq_refl)));
      by_eval.
  - apply (proj2 (proj2 (nonpositive_parameters_rejected willing 31 1
             (row_vector 16) (scalar 4) (scalar 2) (scalar 2) (scalar (-1)) []
             ltac:(by_eval) ltac:(by_eval) eq_refl eq_refl eq_refl eq_refl)));
      by_eval.
Defined.

(** The shapes the gateway does turn away: a first argument that is not
    numeric or not full, a 1-by-1 array, and an array neither of whose
    dimensions is 1 (a matrix, or the 0-by-0 array); the dimensions are
    those [(int)] leaves, which for dimensions below [2^31] are the
    dimensions themselves ([of_size_small]). *)
Lemma shape_rejected (h : host) (fuel : nat) (nlhs : Z)
  (sig : MATRIX) (tl : list MATRIX) :
  4 <= nrhs_of (sig :: tl) <= 5 ->
  nlhs <= 1 ->
  mxIsNumeric sig = false \/ MXFULL sig = false \/
  (CInt.of_size (mxGetM sig) = 1 /\ CInt.of_size (mxGetN sig) = 1) \/
  (CInt.of_size (mxGetM sig) <> 1 /\ CInt.of_size (mxGetN sig) <> 1) ->
  run h fuel nlhs (sig :: tl) =
  (Returned,
   mkworld None [Err "pwvd61" "Input must be a vector"; NTcheck nlhs]).
Proof.
  intros Hn Hnlhs Hbad. unfold run, mexFunction.
  do 3 gw_branch. cbn [nth].
  destruct (negb (mxIsNumeric sig) || negb (MXFULL sig)) eqn:Hfirst;
    gw_simpl; [ reflexivity | ].
  apply orb_false_elim in Hfirst. destruct Hfirst as [Hnum Hfull].
  apply negb_false_iff in Hnum, Hfull.
  destruct Hbad as [Hbad | [Hbad | Hbad]]; try congruence.
  replace ((CInt.of_size (mxGetM sig) =? 1)
           && (CInt.of_size (mxGetN sig) =? 1)
           || negb (CInt.of_size (mxGetM sig) =? 1)
              && negb (CInt.of_size (mxGetN sig) =? 1)) with true.
  - gw_simpl. reflexivity.
  - symmetry. destruct Hbad as [[HM HN] | [HM HN]].
    + rewrite HM, HN. reflexivity.
    + apply Z.eqb_neq in HM, HN. rewrite HM, HN. reflexivity.
Qed.

Lemma shape_rejected_witness :
  run willing 31 1 [row_vector 1; scalar 4; scalar 2; scalar 2] =
  (Returned,
   mkworld None [Err "pwvd61" "Input must be a vector"; NTcheck 1]).
Proof.
  apply (shape_rejected willing 31 1 (row_vector 1)
           [scalar 4; scalar 2; scalar 2]).
  - by_eval.
  - by_eval.
  - right. right. left. split; reflexivity.
Defined.

(** C6. An empty row, 1-by-0, is not turned away: the gateway reads a
    signal length of 1 off it, asks for a 0-by-1 matrix and, when the
    host grants it, calls the engine on one sample of a signal that has
    none.  No "Input must be a vector" is reported. *)
Theorem empty_row_not_rejected (h : host) :
  run h 31 1 [row_vector 0; scalar 1; scalar 1; scalar 1] =
  computation h 1 [] 0 1 (Engine.mkcall true 1 1 1 1 1 0 1).
Proof.
  unfold run. gw_eval. unfold computation.
  destruct (create_ok h 0 1); gw_simpl; [ | reflexivity ].
  destruct (pwvd61_status h _ =? 0); reflexivity.
Qed.


(** ** The computation phase *)

Lemma truncation_warning_quiet (a b : Z) : quiet (truncation_warning a b).
Proof.
  unfold quiet, truncation_warning. destruct (a >? b); [ right | left ];
    reflexivity.
Qed.

Lemma computation_requested_shape (h : host) (nlhs : Z) (pre : list event)
  (rows cols : Z) (c : Engine.call) :
  quiet pre ->
  requested_shape (log (snd (computation h nlhs pre rows cols c)))
  = Some (rows, cols).
Proof.
  unfold computation.
  intros [-> | ->]; destruct (create_ok h rows cols);
    try destruct (pwvd61_status h c =? 0); reflexivity.
Qed.

Lemma computation_engine_call (h : host) (nlhs : Z) (pre : list event)
  (rows cols : Z) (c : Engine.call) :
  quiet pre ->
  engine_call (log (snd (computation h nlhs pre rows cols c)))
  = if create_ok h rows cols then Some c else None.
Proof.
  unfold computation.
  intros [-> | ->]; destruct (create_ok h rows cols);
    try destruct (pwvd61_status h c =? 0); reflexivity.
Qed.

Lemma computation_no_error (h : host) (nlhs : Z) (pre : list event)
  (rows cols : Z) (c : Engine.call) :
  quiet pre ->
  has_error (log (snd (computation h nlhs pre rows cols c))) = false ->
  computation h nlhs pre rows cols c =
  (Next tt,
   mkworld (Some (rows, cols)) (pre ++ [Create rows cols true; Pwvd61 c 0])).
Proof.
  unfold computation.
  intros [-> | ->]; destruct (create_ok h rows cols);
    try destruct (pwvd61_status h c =? 0) eqn:Hs;
    cbn; try discriminate; intros _;
    apply Z.eqb_eq in Hs; rewrite Hs; reflexivity.
Qed.

Lemma computation_success (h : host) (nlhs : Z) (pre : list event)
  (rows cols : Z) (c : Engine.call) :
  create_ok h rows cols = true ->
  pwvd61_status h c = 0 ->
  computation h nlhs pre rows cols c =
  (Next tt,
   mkworld (Some (rows, cols)) (pre ++ [Create rows cols true; Pwvd61 c 0])).
Proof.
  intros Hc Hs. unfold computation. rewrite Hc, Hs. reflexivity.
Qed.

(** The engine is only ever called on a validated call, with the
    results of the two loops and the clamped window length. *)
Lemma engine_called (h : host) (fuel : nat) (nlhs : Z) (prhs : list MATRIX)
  (c : Engine.call) :
  engine_call (log (snd (run h fuel nlhs prhs))) = Some c ->
  exists sig pw pt pd rest,
    prhs = sig :: pw :: pt :: pd :: rest /\
    validated nlhs sig pw pt pd rest /\
    deg_loop fuel (int_value pd) 1 = Some (Engine.deg c) /\
    r2_loop fuel
      (effective_fft rest (clamped (int_value pw) (signal_length_of sig)))
      0 1 = Some (Engine.window_order c, Engine.window_r2 c) /\
    Engine.window_length c = clamped (int_value pw) (signal_length_of sig) /\
    Engine.signal_length c = signal_length_of sig /\
    Engine.time_res c = int_value pt /\
    Engine.nplts c = nplts_of (signal_length_of sig) (int_value pt).
Proof.
  destruct (run_outcome h fuel nlhs prhs)
    as [pre Hq | pre msg Hq Hmsg | sig pw pt pd rest d o r2 Hprhs Hv Hd Hr].
  - destruct Hq as [-> | ->]; discriminate.
  - cbn [snd log]. rewrite (proj2 (rejected_quiet pre msg nlhs Hq)).
    discriminate.
  - rewrite computation_engine_call by apply truncation_warning_quiet.
    destruct (create_ok h _ _); [ | discriminate ].
    intros Hc. injection Hc as <-.
    exists sig, pw, pt, pd, rest. cbn. auto 10.
Qed.

Lemma deg_loop_fuel_mono (fuel fuel' : nat) (x r v : Z) :
  (fuel <= fuel')%nat ->
  deg_loop fuel x r = Some v -> deg_loop fuel' x r = Some v.
Proof.
  intros Hle. rewrite !(deg_loop_r2_loop _ x 0 r).
  destruct (r2_loop fuel x 0 r) as [p |] eqn:Hp; [ | discriminate ].
  rewrite (r2_loop_fuel_mono fuel fuel' x 0 r p Hle Hp). auto.
Qed.

(** No [int] beyond [2^30] is a power of two. *)
Lemma pow2_in_range (r : Z) :
  CInt.in_range r -> is_pow2 r -> r <= 2 ^ 30.
Proof.
  unfold CInt.in_range, CInt.half_modulus, CInt.width. simpl Z.sub.
  intros Hr (k & Hk & ->).
  apply Z.pow_le_mono_r; [ lia | ].
  destruct (Z.le_gt_cases k 30) as [ | Hgt ]; [ assumption | ].
  assert (2 ^ 31 <= 2 ^ k) by (apply Z.pow_le_mono_r; lia). lia.
Qed.

(** ** Normalisation of the parameters *)

(** C3 (amended). For every request from 0 up to [2^30] for the
    interpolation order, the doubling from 1 leaves with the least power
    of two that is not below the request, which is at least 1, and this
    is the order the engine receives whenever it is called; requests
    0, 1, 2, 3, 4, 5 give 1, 1, 2, 4, 4, 8. *)
Theorem poly_order_normalised (fuel : nat) (d : Z) :
  0 <= d <= 2 ^ 30 ->
  (31 <= fuel)%nat ->
  (exists k, 0 <= k /\ deg_loop fuel d 1 = Some (2 ^ k) /\
             1 <= 2 ^ k /\ least_pow2_above d (2 ^ k))
  /\
  (forall h nlhs sig pw pt pd rest c,
     int_value pd = d ->
     engine_call (log (snd (run h fuel nlhs (sig :: pw :: pt :: pd :: rest))))
     = Some c ->
     deg_loop fuel d 1 = Some (Engine.deg c))
  /\
  map (fun request => deg_loop fuel request 1) [0; 1; 2; 3; 4; 5]
  = [Some 1; Some 1; Some 2; Some 4; Some 4; Some 8].
Proof.
  intros Hd Hfuel. split; [ | split ].
  - destruct (deg_loop_spec d fuel (proj2 Hd) Hfuel) as (k & Hk & Hrun & Hl).
    exists k. split; [ lia | ]. split; [ exact Hrun | ].
    split; [ | exact Hl ].
    assert (0 < 2 ^ k) by (apply Z.pow_pos_nonneg; lia). lia.
  - intros h nlhs sig pw pt pd rest c Hpd Hcall.
    destruct (engine_called _ _ _ _ _ Hcall)
      as (sig' & pw' & pt' & pd' & rest' & Hprhs & _ & Hdeg & _).
    injection Hprhs as <- <- <- <- <-. rewrite <- Hpd. exact Hdeg.
  - assert (forall x v, deg_loop 31 x 1 = Some v ->
                        deg_loop fuel x 1 = Some v) as Hm
      by (intros x v; apply deg_loop_fuel_mono; exact Hfuel).
    cbn [map].
    rewrite (Hm 0 1), (Hm 1 1), (Hm 2 2), (Hm 3 4), (Hm 4 4), (Hm 5 8)
      by reflexivity.
    reflexivity.
Qed.

Lemma poly_order_normalised_witness :
  (exists k, 0 <= k /\ deg_loop 31 5 1 = Some (2 ^ k) /\
             1 <= 2 ^ k /\ least_pow2_above 5 (2 ^ k))
  /\
  (forall h nlhs sig pw pt pd rest c,
     int_value pd = 5 ->
     engine_call (log (snd (run h 31 nlhs (sig :: pw :: pt :: pd :: rest))))
     = Some c ->
     deg_loop 31 5 1 = Some (Engine.deg c))
  /\
  map (fun request => deg_loop 31 request 1) [0; 1; 2; 3; 4; 5]
  = [Some 1; Some 1; Some 2; Some 4; Some 4; Some 8].
Proof.
  apply (poly_order_normalised 31 5); [ lia | lia ].
Defined.

(** C3 as stated fails at the request [2^30 + 1], a non-negative
    [int]: the doubling never leaves, and a call that passes every check
    with that order never reaches the engine. *)
Lemma poly_order_out_of_reach :
  0 <= 2 ^ 30 + 1 /\ CInt.in_range (2 ^ 30 + 1) /\
  ~ (exists fuel r, deg_loop fuel (2 ^ 30 + 1) 1 = Some r) /\
  validated 1 (row_vector 16) (scalar 4) (scalar 2) (scalar (2 ^ 30 + 1)) [] /\
  ~ (exists fuel c,
       engine_call
         (log (snd (run willing fuel 1
                      [row_vector 16; scalar 4; scalar 2;
                       scalar (2 ^ 30 + 1)])))
       = Some c).
Proof.
  assert (validated 1 (row_vector 16) (scalar 4) (scalar 2)
            (scalar (2 ^ 30 + 1)) []) as Hv
    by (constructor; by_eval).
  split; [ lia | ]. split; [ by_eval | ]. split; [ | split ].
  - intros (fuel & r & Hrun).
    rewrite deg_loop_diverges in Hrun by lia. discriminate.
  - exact Hv.
  - intros (fuel & c & Hcall).
    rewrite (run_spinning willing fuel 1 _ _ _ _ _ Hv) in Hcall
      by (left; by_eval).
    discriminate.
Qed.

Lemma effective_fft_max (rest : list MATRIX) (wl : Z) :
  effective_fft rest wl = Z.max (requested_fft rest wl) wl.
Proof.
  unfold effective_fft.
  destruct (requested_fft rest wl <? wl) eqn:Hlt;
    [ apply Z.ltb_lt in Hlt | apply Z.ltb_ge in Hlt ]; lia.
Qed.

(** ** Shape of the output *)

(** C1 (amended). For every valid input (a numeric, full row or column
    of at least two and fewer than [2^31] samples; good scalars that
    [(int)] reads as [1 <= time_step <= signal_length],
    [window_length >= 1], [transform_length >= 0] when supplied) whose
    requested order and effective transform length do not exceed
    [2^30], the gateway reads the length of the signal as it is and
    asks for a matrix of exactly
    [radix_length / 2] rows and [ceil(signal_length / time_step)]
    columns, [radix_length] being the least power of two not below the
    effective transform length; that is the shape of the matrix in the
    output slot when no error is reported. *)
Theorem output_shape (h : host) (fuel : nat) (nlhs : Z)
  (sig pw pt pd : MATRIX) (rest : list MATRIX) :
  validated nlhs sig pw pt pd rest ->
  vector_ge2 sig ->
  int_value pd <= 2 ^ 30 ->
  effective_fft rest (clamped (int_value pw) (signal_length_of sig))
    <= 2 ^ 30 ->
  (31 <= fuel)%nat ->
  exists radix_length cols,
    least_pow2_above
      (effective_fft rest (clamped (int_value pw) (signal_length_of sig)))
      radix_length /\
    signal_length_of sig = Z.max (mxGetM sig) (mxGetN sig) /\
    is_ceiling (signal_length_of sig) (int_value pt) cols /\
    requested_shape
      (log (snd (run h fuel nlhs (sig :: pw :: pt :: pd :: rest))))
    = Some (radix_length / 2, cols) /\
    (has_error
       (log (snd (run h fuel nlhs (sig :: pw :: pt :: pd :: rest)))) = false ->
     plhs0 (snd (run h fuel nlhs (sig :: pw :: pt :: pd :: rest)))
     = Some (radix_length / 2, cols)).
Proof.
  intros Hv Hvec Hdeg Hfft Hfuel.
  destruct (run_validated h fuel nlhs sig pw pt pd rest Hv Hdeg Hfft Hfuel)
    as (i & j & Hi & Hj & Hdl & Hrl & Hrun).
  exists (2 ^ j), (nplts_of (signal_length_of sig) (int_value pt)).
  rewrite Hrun, (half_rows_pow2 j Hj).
  split; [ exact Hrl | ].
  split; [ apply signal_length_of_vector; exact Hvec | ].
  split; [ | split ].
  - apply nplts_of_ceiling. destruct Hv. lia.
  - apply computation_requested_shape, truncation_warning_quiet.
  - intros Hquiet.
    rewrite (computation_no_error _ _ _ _ _ _
               (truncation_warning_quiet _ _) Hquiet).
    reflexivity.
Qed.

Lemma output_shape_witness :
  exists radix_length cols,
    least_pow2_above
      (effective_fft [scalar 100]
         (clamped (int_value (scalar 40)) (signal_length_of (row_vector 16))))
      radix_length /\
    signal_length_of (row_vector 16)
    = Z.max (mxGetM (row_vector 16)) (mxGetN (row_vector 16)) /\
    is_ceiling (signal_length_of (row_vector 16)) (int_value (scalar 3)) cols /\
    requested_shape
      (log (snd (run willing 31 1
                   [row_vector 16; scalar 40; scalar 3; scalar 5;
                    scalar 100])))
    = Some (radix_length / 2, cols) /\
    (has_error
       (log (snd (run willing 31 1
                    [row_vector 16; scalar 40; scalar 3; scalar 5;
                     scalar 100]))) = false ->
     plhs0 (snd (run willing 31 1
                   [row_vector 16; scalar 40; scalar 3; scalar 5;
                    scalar 100]))
     = Some (radix_length / 2, cols)).
Proof.
  apply (output_shape willing 31 1 (row_vector 16) (scalar 40) (scalar 3)
           (scalar 5) [scalar 100]).
  - constructor; by_eval.
  - left. split; by_eval.
  - by_eval.
  - by_eval.
  - lia.
Defined.

(** C1 as stated fails on a valid input whose transform length is
    [2^30 + 1]: whatever the fuel, nothing is ever asked of
    [MXCREATEFULL].  It also fails on a row of [2^32 + 16] samples,
    which [(int)] reads as 16: with a step of 3 the matrix asked for has
    6 columns, not the [ceil((2^32 + 16) / 3)] of the signal. *)
Lemma output_shape_out_of_reach :
  validated 1 (row_vector 16) (scalar 4) (scalar 2) (scalar 2)
    [scalar (2 ^ 30 + 1)] /\
  vector_ge2 (row_vector 16) /\
  ~ (exists fuel shape,
       requested_shape
         (log (snd (run willing fuel 1
                      [row_vector 16; scalar 4; scalar 2; scalar 2;
                       scalar (2 ^ 30 + 1)])))
       = Some shape) /\
  validated 1 (row_vector (2 ^ 32 + 16)) (scalar 4) (scalar 3) (scalar 2) [] /\
  (mxGetM (row_vector (2 ^ 32 + 16)) = 1 /\
   2 <= mxGetN (row_vector (2 ^ 32 + 16))) /\
  requested_shape
    (log (snd (run willing 31 1
                 [row_vector (2 ^ 32 + 16); scalar 4; scalar 3; scalar 2])))
  = Some (2, 6) /\
  is_ceiling (2 ^ 32 + 16) 3 1431655771.
Proof.
  assert (validated 1 (row_vector 16) (scalar 4) (scalar 2) (scalar 2)
            [scalar (2 ^ 30 + 1)]) as Hv
    by (constructor; by_eval).
  split; [ exact Hv | ]. split; [ left; split; by_eval | ].
  split;
    [ | split; [ constructor; by_eval
               | split; [ split; by_eval | split; by_eval ] ] ].
  intros (fuel & shape & Hshape).
  rewrite (run_spinning willing fuel 1 _ _ _ _ _ Hv) in Hshape
    by (right; by_eval).
  discriminate.
Qed.

(** C2 (amended). For every call that passes the checks and whose
    requested order and effective transform length, as [(int)] reads
    them, do not exceed [2^30], the radix loop leaves with [window_r2 = 2^window_order], a
    power of two that is no smaller than the clamped window length and
    no smaller than the requested transform length: the length rounded
    is the larger of the request and the window length, and the request
    is the window length when there is no fifth argument.  These are the
    values the allocation and the engine receive. *)
Theorem radix_length_invariant (h : host) (fuel : nat) (nlhs : Z)
  (sig pw pt pd : MATRIX) (rest : list MATRIX) :
  validated nlhs sig pw pt pd rest ->
  int_value pd <= 2 ^ 30 ->
  effective_fft rest (clamped (int_value pw) (signal_length_of sig))
    <= 2 ^ 30 ->
  (31 <= fuel)%nat ->
  let wl := clamped (int_value pw) (signal_length_of sig) in
  exists order,
    0 <= order /\
    r2_loop fuel (effective_fft rest wl) 0 1 = Some (order, 2 ^ order) /\
    is_pow2 (2 ^ order) /\
    wl <= 2 ^ order /\
    requested_fft rest wl <= 2 ^ order /\
    effective_fft rest wl = Z.max (requested_fft rest wl) wl /\
    requested_fft [] wl = wl /\
    requested_shape
      (log (snd (run h fuel nlhs (sig :: pw :: pt :: pd :: rest))))
    = Some (half_rows (2 ^ order),
            nplts_of (signal_length_of sig) (int_value pt)) /\
    (forall c,
       engine_call
         (log (snd (run h fuel nlhs (sig :: pw :: pt :: pd :: rest))))
       = Some c ->
       Engine.window_r2 c = 2 ^ order /\
       Engine.window_order c = order /\
       Engine.window_length c = wl).
Proof.
  intros Hv Hdeg Hfft Hfuel wl.
  destruct (run_validated h fuel nlhs sig pw pt pd rest Hv Hdeg Hfft Hfuel)
    as (i & j & Hi & Hj & Hdl & Hrl & Hrun).
  fold wl in Hrl, Hrun, Hfft.
  destruct (r2_loop_spec (effective_fft rest wl) fuel Hfft Hfuel)
    as (j' & Hj' & Hloop & Hl').
  assert (2 ^ j' = 2 ^ j) as Hsame.
  { destruct Hrl as (Hp & Hge & Hmin). destruct Hl' as (Hp' & Hge' & Hmin').
    apply Z.le_antisymm; auto. }
  rewrite Hsame in Hloop.
  assert (j' = j) as ->.
  { apply (Z.pow_inj_r 2); lia. }
  exists j. destruct Hrl as (Hp & Hge & Hmin).
  rewrite effective_fft_max in Hge.
  split; [ lia | ]. split; [ exact Hloop | ]. split; [ exact Hp | ].
  split; [ lia | ]. split; [ lia | ].
  split; [ apply effective_fft_max | ]. split; [ reflexivity | ].
  rewrite Hrun. split.
  - apply computation_requested_shape, truncation_warning_quiet.
  - intros c. rewrite computation_engine_call
      by apply truncation_warning_quiet.
    destruct (create_ok h _ _); [ | discriminate ].
    intros Hc. injection Hc as <-. cbn. auto.
Qed.

Lemma radix_length_invariant_witness :
  let wl :=
    clamped (int_value (scalar 40)) (signal_length_of (row_vector 16)) in
  exists order,
    0 <= order /\
    r2_loop 31 (effective_fft [scalar 100] wl) 0 1 = Some (order, 2 ^ order) /\
    is_pow2 (2 ^ order) /\
    wl <= 2 ^ order /\
    requested_fft [scalar 100] wl <= 2 ^ order /\
    effective_fft [scalar 100] wl = Z.max (requested_fft [scalar 100] wl) wl /\
    requested_fft [] wl = wl /\
    requested_shape
      (log (snd (run willing 31 1
                   [row_vector 16; scalar 40; scalar 3; scalar 5;
                    scalar 100])))
    = Some (half_rows (2 ^ order),
            nplts_of (signal_length_of (row_vector 16))
              (int_value (scalar 3))) /\
    (forall c,
       engine_call
         (log (snd (run willing 31 1
                      [row_vector 16; scalar 40; scalar 3; scalar 5;
                       scalar 100])))
       = Some c ->
       Engine.window_r2 c = 2 ^ order /\
       Engine.window_order c = order /\
       Engine.window_length c = wl).
Proof.
  apply (radix_length_invariant willing 31 1 (row_vector 16) (scalar 40)
           (scalar 3) (scalar 5) [scalar 100]).
  - constructor; by_eval.
  - by_eval.
  - by_eval.
  - lia.
Defined.

(** C2 as stated fails on a call that passes every check and asks for
    a transform length of [2^30 + 1]: no [int] is a power of two that
    large, the radix loop yields nothing, and the gateway never leaves
    it. *)
Lemma radix_length_out_of_reach :
  validated 1 (row_vector 64) (scalar 8) (scalar 4) (scalar 2)
    [scalar (2 ^ 30 + 1)] /\
  requested_fft [scalar (2 ^ 30 + 1)]
    (clamped (int_value (scalar 8)) (signal_length_of (row_vector 64)))
  = 2 ^ 30 + 1 /\
  ~ (exists r2, CInt.in_range r2 /\ is_pow2 r2 /\ 2 ^ 30 + 1 <= r2) /\
  ~ (exists fuel r,
       r2_loop fuel
         (effective_fft [scalar (2 ^ 30 + 1)]
            (clamped (int_value (scalar 8))
               (signal_length_of (row_vector 64))))
         0 1 = Some r) /\
  ~ (exists fuel,
       fst (run willing fuel 1
              [row_vector 64; scalar 8; scalar 4; scalar 2;
               scalar (2 ^ 30 + 1)]) <> Spinning).
Proof.
  assert (validated 1 (row_vector 64) (scalar 8) (scalar 4) (scalar 2)
            [scalar (2 ^ 30 + 1)]) as Hv
    by (constructor; by_eval).
  split; [ exact Hv | ]. split; [ by_eval | ]. split; [ | split ].
  - intros (r2 & Hrange & Hpow & Hge).
    pose proof (pow2_in_range r2 Hrange Hpow). lia.
  - intros (fuel & r & Hrun).
    rewrite r2_loop_diverges in Hrun by by_eval. discriminate.
  - intros (fuel & Hflow).
    rewrite (run_spinning willing fuel 1 _ _ _ _ _ Hv) in Hflow
      by (right; by_eval).
    apply Hflow. reflexivity.
Qed.

(** C10. With a window length read as 1 and no fifth argument, or one of
    value 0 or 1, a call that passes every check (its order within
    reach) gets [window_r2 = 1] and asks for a matrix of
    [(int)(1 * 0.5) = 0] rows; when the host grants it and the engine
    reports success, the call ends without any error and leaves a
    matrix of zero rows in the output slot. *)
Theorem unit_window_zero_rows (h : host) (fuel : nat) (nlhs : Z)
  (sig pw pt pd : MATRIX) (rest : list MATRIX) :
  validated nlhs sig pw pt pd rest ->
  int_value pw = 1 ->
  requested_fft rest 1 <= 1 ->
  int_value pd <= 2 ^ 30 ->
  (31 <= fuel)%nat ->
  let cols := nplts_of (signal_length_of sig) (int_value pt) in
  exists d,
    let c := Engine.mkcall (negb (mxIsComplex sig)) (signal_length_of sig)
               cols (int_value pt) 1 1 0 d in
    half_rows 1 = 0 /\
    run h fuel nlhs (sig :: pw :: pt :: pd :: rest)
    = computation h nlhs [] 0 cols c /\
    requested_shape
      (log (snd (run h fuel nlhs (sig :: pw :: pt :: pd :: rest))))
    = Some (0, cols) /\
    (create_ok h 0 cols = true -> pwvd61_status h c = 0 ->
     run h fuel nlhs (sig :: pw :: pt :: pd :: rest)
     = (Next tt, mkworld (Some (0, cols)) [Create 0 cols true; Pwvd61 c 0])).
Proof.
  intros Hv Hwl Hreq Hdeg Hfuel cols.
  assert (clamped (int_value pw) (signal_length_of sig) = 1) as Hclamp.
  { unfold clamped. rewrite Hwl.
    replace (1 >? signal_length_of sig) with false; [ reflexivity | ].
    symmetry. rewrite Z.gtb_ltb. apply Z.ltb_ge. destruct Hv. lia. }
  assert (truncation_warning (int_value pw) (signal_length_of sig) = [])
    as Hquiet.
  { unfold truncation_warning. rewrite Hwl.
    replace (1 >? signal_length_of sig) with false; [ reflexivity | ].
    symmetry. rewrite Z.gtb_ltb. apply Z.ltb_ge. destruct Hv. lia. }
  assert (effective_fft rest 1 = 1) as Heff
    by (rewrite effective_fft_max; lia).
  destruct (run_validated h fuel nlhs sig pw pt pd rest Hv Hdeg)
    as (i & j & Hi & Hj & Hdl & Hrl & Hrun);
    [ rewrite Hclamp, Heff; lia | exact Hfuel | ].
  rewrite Hclamp, Heff in Hrl. rewrite Hclamp, Hquiet in Hrun.
  assert (j = 0) as ->.
  { destruct Hrl as (_ & _ & Hmin).
    assert (2 ^ j <= 1) as Hle
      by (apply Hmin; [ exists 0; split; [ lia | reflexivity ] | lia ]).
    destruct (Z.eq_dec j 0) as [ | Hne ]; [ assumption | ].
    assert (2 ^ 1 <= 2 ^ j) by (apply Z.pow_le_mono_r; lia). lia. }
  change (2 ^ 0) with 1 in Hrun. change (half_rows 1) with 0 in Hrun.
  fold cols in Hrun.
  exists (2 ^ i). cbv zeta. rewrite Hrun.
  split; [ reflexivity | ]. split; [ reflexivity | ]. split.
  - apply computation_requested_shape. left. reflexivity.
  - intros Hc Hs. apply computation_success; assumption.
Qed.

Lemma unit_window_zero_rows_witness :
  let cols :=
    nplts_of (signal_length_of (row_vector 16)) (int_value (scalar 1)) in
  exists d,
    let c := Engine.mkcall (negb (mxIsComplex (row_vector 16)))
               (signal_length_of (row_vector 16)) cols
               (int_value (scalar 1)) 1 1 0 d in
    half_rows 1 = 0 /\
    run willing 31 1 [row_vector 16; scalar 1; scalar 1; scalar 1]
    = computation willing 1 [] 0 cols c /\
    requested_shape
      (log (snd (run willing 31 1
                   [row_vector 16; scalar 1; scalar 1; scalar 1])))
    = Some (0, cols) /\
    (create_ok willing 0 cols = true -> pwvd61_status willing c = 0 ->
     run willing 31 1 [row_vector 16; scalar 1; scalar 1; scalar 1]
     = (Next tt, mkworld (Some (0, cols)) [Create 0 cols true; Pwvd61 c 0])).
Proof.
  apply (unit_window_zero_rows willing 31 1 (row_vector 16) (scalar 1)
           (scalar 1) (scalar 1) []).
  - constructor; by_eval.
  - by_eval.
  - by_eval.
  - by_eval.
  - lia.
Defined.

(** ** The window length against the signal length *)

Lemma framed_ret (A : Type) (a : A) : framed (ret a).
Proof. intros e w. reflexivity. Qed.

Lemma framed_return (A : Type) : framed (@return_ A).
Proof. intros e w. reflexivity. Qed.

Lemma framed_skip : framed skip.
Proof. intros e w. reflexivity. Qed.

Lemma framed_emit (x : event) : framed (emit x).
Proof. intros e w. reflexivity. Qed.

Lemma framed_of_loop (A : Type) (r : option A) : framed (of_loop r).
Proof. intros e w. destruct r; reflexivity. Qed.

Lemma framed_set_plhs0 (p : option (Z * Z)) : framed (set_plhs0 p).
Proof. intros e w. reflexivity. Qed.

Lemma framed_winNTcheck (nlhs : Z) : framed (winNTcheck nlhs).
Proof. intros e w. reflexivity. Qed.

Lemma framed_MXCREATEFULL (h : host) (m n : Z) : framed (MXCREATEFULL h m n).
Proof. intros e w. reflexivity. Qed.

Lemma framed_pwvd61 (h : host) (c : Engine.call) : framed (pwvd61 h c).
Proof. intros e w. reflexivity. Qed.

Lemma framed_bind (A B : Type) (m : gw A) (k : A -> gw B) :
  framed m -> (forall a, framed (k a)) -> framed (bind m k).
Proof.
  intros Hm Hk e w. unfold bind. rewrite Hm.
  destruct (m w) as [[a | |] w']; cbn [fst snd]; try reflexivity.
  apply Hk.
Qed.

Lemma framed_if (A : Type) (b : bool) (m1 m2 : gw A) :
  framed m1 -> framed m2 -> framed (if b then m1 else m2).
Proof. destruct b; auto. Qed.

Lemma framed_fail (nlhs : Z) (msg : string) : framed (fail nlhs msg).
Proof.
  unfold fail, tfsaErr.
  repeat (apply framed_bind; [ | intros _ ]);
    auto using framed_emit, framed_winNTcheck, framed_return.
Qed.

Create HintDb gw_frame.
#[local] Hint Resolve framed_ret framed_return framed_skip framed_emit
  framed_of_loop framed_set_plhs0 framed_winNTcheck framed_MXCREATEFULL
  framed_pwvd61 framed_bind framed_if framed_fail : gw_frame.

Lemma clamped_run (h : host) (fuel : nat) (nlhs : Z)
  (sig pw pw' : MATRIX) (tl : list MATRIX) :
  4 <= nrhs_of (sig :: pw :: tl) <= 5 ->
  nlhs <= 1 ->
  mxIsNumeric sig = true -> MXFULL sig = true ->
  rejected_shape sig = false ->
  1 <= signal_length_of sig ->
  GoodScalar pw = true ->
  signal_length_of sig < int_value pw ->
  GoodScalar pw' = true ->
  int_value pw' = signal_length_of sig ->
  run h fuel nlhs (sig :: pw :: tl) = warned (run h fuel nlhs (sig :: pw' :: tl)).
Proof.
  intros Hn Hnlhs Hnum Hfull Hshape Hsl Hpw Hwl Hpw' Hwl'.
  assert (nrhs_of (sig :: pw' :: tl) = nrhs_of (sig :: pw :: tl)) as Hn'
    by reflexivity.
  unfold rejected_shape in Hshape.
  unfold run, mexFunction. rewrite Hn'. cbn [nth].
  fold (signal_length_of sig). rewrite Hwl'.
  repeat gw_branch.
  match goal with
  | |- ?m _ = warned (?m fresh) =>
      assert (framed m) as Hframed
  end.
  { unfold tfsaErr. auto 40 with gw_frame. }
  exact (Hframed
           (Warning "pwvd61"
              "Window length has been truncated to signal length") fresh).
Qed.

(** C4. A window length that [(int)] reads above the signal length is no
    reason to fail.
    The gateway reports the warning "Window length has been truncated to
    signal length" through [tfsaWarning], not an error, and goes on
    exactly as a call whose window length is the signal length would:
    same flow, same output slot, same log after the warning.  When the
    rest of the call is in order, the allocation and the engine receive
    the clamped value, and the call succeeds whenever they do. *)
Theorem window_length_clamped (h : host) (fuel : nat) (nlhs : Z)
  (sig pw pt pd : MATRIX) (rest : list MATRIX) :
  (List.length rest <= 1)%nat ->
  nlhs <= 1 ->
  mxIsNumeric sig = true -> MXFULL sig = true ->
  rejected_shape sig = false ->
  1 <= signal_length_of sig ->
  GoodScalar pw = true ->
  signal_length_of sig < int_value pw ->
  (forall pw',
     GoodScalar pw' = true -> int_value pw' = signal_length_of sig ->
     run h fuel nlhs (sig :: pw :: pt :: pd :: rest)
     = warned (run h fuel nlhs (sig :: pw' :: pt :: pd :: rest)))
  /\
  (validated nlhs sig pw pt pd rest ->
   int_value pd <= 2 ^ 30 ->
   effective_fft rest (signal_length_of sig) <= 2 ^ 30 ->
   (31 <= fuel)%nat ->
   exists d order,
     let rows := half_rows (2 ^ order) in
     let cols := nplts_of (signal_length_of sig) (int_value pt) in
     let c := Engine.mkcall (negb (mxIsComplex sig)) (signal_length_of sig)
                cols (int_value pt) (signal_length_of sig)
                (2 ^ order) order d in
     let warning :=
       Warning "pwvd61" "Window length has been truncated to signal length" in
     run h fuel nlhs (sig :: pw :: pt :: pd :: rest)
     = computation h nlhs [warning] rows cols c /\
     (create_ok h rows cols = true -> pwvd61_status h c = 0 ->
      run h fuel nlhs (sig :: pw :: pt :: pd :: rest)
      = (Next tt,
         mkworld (Some (rows, cols))
           [warning; Create rows cols true; Pwvd61 c 0]))).
Proof.
  intros Hrest Hnlhs Hnum Hfull Hshape Hsl Hpw Hwl.
  assert (clamped (int_value pw) (signal_length_of sig)
          = signal_length_of sig) as Hclamp.
  { unfold clamped.
    replace (int_value pw >? signal_length_of sig) with true;
      [ reflexivity | symmetry; bool_solve ]. }
  assert (truncation_warning (int_value pw) (signal_length_of sig)
          = [Warning "pwvd61"
               "Window length has been truncated to signal length"])
    as Hwarn.
  { unfold truncation_warning.
    replace (int_value pw >? signal_length_of sig) with true;
      [ reflexivity | symmetry; bool_solve ]. }
  split.
  - intros pw' Hpw' Hwl'. apply clamped_run; try assumption.
    unfold nrhs_of. cbn [List.length]. lia.
  - intros Hv Hdeg Hfft Hfuel.
    destruct (run_validated h fuel nlhs sig pw pt pd rest Hv Hdeg)
      as (i & j & Hi & Hj & Hdl & Hrl & Hrun);
      [ rewrite Hclamp; exact Hfft | exact Hfuel | ].
    rewrite Hclamp, Hwarn in Hrun.
    exists (2 ^ i), j. cbv zeta. split; [ exact Hrun | ].
    intros Hc Hs. rewrite Hrun. apply computation_success; assumption.
Qed.

Lemma window_length_clamped_witness :
  (forall pw',
     GoodScalar pw' = true ->
     int_value pw' = signal_length_of (row_vector 16) ->
     run willing 31 1 [row_vector 16; scalar 40; scalar 3; scalar 5]
     = warned (run willing 31 1 [row_vector 16; pw'; scalar 3; scalar 5]))
  /\
  (validated 1 (row_vector 16) (scalar 40) (scalar 3) (scalar 5) [] ->
   int_value (scalar 5) <= 2 ^ 30 ->
   effective_fft [] (signal_length_of (row_vector 16)) <= 2 ^ 30 ->
   (31 <= 31)%nat ->
   exists d order,
     let rows := half_rows (2 ^ order) in
     let cols :=
       nplts_of (signal_length_of (row_vector 16)) (int_value (scalar 3)) in
     let c := Engine.mkcall (negb (mxIsComplex (row_vector 16)))
                (signal_length_of (row_vector 16))
                cols (int_value (scalar 3)) (signal_length_of (row_vector 16))
                (2 ^ order) order d in
     let warning :=
       Warning "pwvd61" "Window length has been truncated to signal length" in
     run willing 31 1 [row_vector 16; scalar 40; scalar 3; scalar 5]
     = computation willing 1 [warning] rows cols c /\
     (create_ok willing rows cols = true -> pwvd61_status willing c = 0 ->
      run willing 31 1 [row_vector 16; scalar 40; scalar 3; scalar 5]
      = (Next tt,
         mkworld (Some (rows, cols))
           [warning; Create rows cols true; Pwvd61 c 0]))).
Proof.
  apply (window_length_clamped willing 31 1 (row_vector 16) (scalar 40)
           (scalar 3) (scalar 5) []); by_eval.
Defined.

(** ** Failures *)

(** Reads the facts asked of a log that is known in full. *)
Ltac log_facts :=
  repeat split; intros; cbn in *;
  intuition (try discriminate; try congruence).

(** C8. On any failure the caller receives no matrix.  Whenever an
    error is reported the output slot is empty at the end of the call
    (this rests on what [winNTcheck] is taken to do); an error of a
    validation check is reported with nothing allocated and the engine
    not called; a refused allocation is reported, and the engine is not
    called; a failure of the engine is reported, and the matrix it was
    filling is not left in the output slot. *)
Theorem failure_leaves_no_matrix (h : host) (fuel : nat) (nlhs : Z)
  (prhs : list MATRIX) :
  let w := snd (run h fuel nlhs prhs) in
  (has_error (log w) = true -> plhs0 w = None)
  /\
  (forall msg,
     In (Err "pwvd61" msg) (log w) ->
     In msg validation_messages ->
     requested_shape (log w) = None /\ engine_call (log w) = None)
  /\
  (forall m n,
     In (Create m n false) (log w) ->
     In (Err "pwvd61" "Memory allocation failed") (log w) /\
     engine_call (log w) = None /\ plhs0 w = None)
  /\
  (forall c status,
     In (Pwvd61 c status) (log w) -> status <> 0 ->
     In (Err "pwvd61" "Function failed") (log w) /\ plhs0 w = None).
Proof.
  cbv zeta.
  destruct (run_outcome h fuel nlhs prhs)
    as [pre Hq | pre msg Hq Hmsg | sig pw pt pd rest d o r2 Hprhs Hv Hd Hr].
  - cbn [snd log plhs0]. destruct Hq as [-> | ->]; log_facts.
  - cbn [snd log plhs0]. destruct Hq as [-> | ->]; log_facts.
  - unfold computation.
    pose proof (truncation_warning_quiet (int_value pw) (signal_length_of sig))
      as Hq.
    destruct Hq as [-> | ->];
      destruct (create_ok h _ _);
      try destruct (pwvd61_status h _ =? 0) eqn:Hs;
      try (apply Z.eqb_eq in Hs);
      log_facts.
Qed.

Lemma failure_leaves_no_matrix_witness :
  plhs0 (snd (run failing_engine 31 1
                [row_vector 16; scalar 4; scalar 2; scalar 2])) = None
  /\
  In (Err "pwvd61" "Function failed")
    (log (snd (run failing_engine 31 1
                 [row_vector 16; scalar 4; scalar 2; scalar 2]))).
Proof.
  destruct (failure_leaves_no_matrix failing_engine 31 1
              [row_vector 16; scalar 4; scalar 2; scalar 2])
    as (Hslot & _ & _ & Hengine).
  split.
  - apply Hslot. reflexivity.
  - apply (Hengine (Engine.mkcall true 16 8 2 4 4 2 2) 1).
    + vm_compute. tauto.
    + discriminate.
Defined.

(** ** Further properties of the gateway *)

(** *** Parameters that are not scalars *)

(** Each of the four parameters is turned away with a message of its
    own when [GoodScalar] refuses it and the arguments before it, as
    [(int)] reads them, are in order; a refused fifth argument is only met after the order has been
    rounded. *)
Theorem non_scalar_rejected (h : host) (fuel : nat) (nlhs : Z)
  (sig pw pt pd pf : MATRIX) (rest : list MATRIX) :
  (List.length rest <= 1)%nat ->
  nlhs <= 1 ->
  mxIsNumeric sig = true -> MXFULL sig = true ->
  rejected_shape sig = false ->
  (GoodScalar pw = false ->
   run h fuel nlhs (sig :: pw :: pt :: pd :: rest) =
   (Returned,
    mkworld None
      [Err "pwvd61" "Smoothing window length must be a scalar";
       NTcheck nlhs]))
  /\
  (GoodScalar pw = true -> 1 <= int_value pw -> GoodScalar pt = false ->
   run h fuel nlhs (sig :: pw :: pt :: pd :: rest) =
   (Returned,
    mkworld None
      (truncation_warning (int_value pw) (signal_length_of sig) ++
       [Err "pwvd61" "Time resolution must be a scalar"; NTcheck nlhs])))
  /\
  (GoodScalar pw = true -> 1 <= int_value pw -> GoodScalar pt = true ->
   1 <= int_value pt <= signal_length_of sig -> GoodScalar pd = false ->
   run h fuel nlhs (sig :: pw :: pt :: pd :: rest) =
   (Returned,
    mkworld None
      (truncation_warning (int_value pw) (signal_length_of sig) ++
       [Err "pwvd61" "Interpolation degree must be a scalar";
        NTcheck nlhs])))
  /\
  (GoodScalar pw = true -> 1 <= int_value pw -> GoodScalar pt = true ->
   1 <= int_value pt <= signal_length_of sig -> GoodScalar pd = true ->
   int_value pd <= 2 ^ 30 -> (31 <= fuel)%nat -> GoodScalar pf = false ->
   run h fuel nlhs [sig; pw; pt; pd; pf] =
   (Returned,
    mkworld None
      (truncation_warning (int_value pw) (signal_length_of sig) ++
       [Err "pwvd61" "FFT length must be a scalar"; NTcheck nlhs]))).
Proof.
  intros Hrest Hnlhs Hnum Hfull Hshape.
  assert (4 <= nrhs_of (sig :: pw :: pt :: pd :: rest) <= 5) as Hn
    by (unfold nrhs_of; cbn [List.length]; lia).
  unfold rejected_shape in Hshape.
  split; [ | split; [ | split ] ].
  - intros Hpw. unfold run, mexFunction.
    do 6 gw_branch. reflexivity.
  - intros Hpw Hwl Hpt. unfold run, mexFunction.
    do 7 gw_branch. fold (signal_length_of sig).
    unfold truncation_warning.
    destruct (int_value pw >? signal_length_of sig); gw_simpl;
      gw_branch; reflexivity.
  - intros Hpw Hwl Hpt Hts Hpd. unfold run, mexFunction.
    do 7 gw_branch. fold (signal_length_of sig).
    unfold truncation_warning.
    destruct (int_value pw >? signal_length_of sig); gw_simpl;
      do 4 gw_branch; reflexivity.
  - intros Hpw Hwl Hpt Hts Hpd Hdeg Hfuel Hpf. clear Hn.
    assert (nrhs_of [sig; pw; pt; pd; pf] = 5) as Hn by reflexivity.
    destruct (deg_loop_spec (int_value pd) fuel Hdeg Hfuel)
      as (i & Hi & Hdegrun & Hdegleast).
    unfold run, mexFunction.
    do 7 gw_branch. fold (signal_length_of sig).
    unfold truncation_warning.
    destruct (int_value pw >? signal_length_of sig); gw_simpl;
      do 4 gw_branch; rewrite Hdegrun; gw_simpl;
      rewrite Hn; cbn [Z.eqb Pos.eqb nth]; gw_simpl;
      gw_branch; reflexivity.
Qed.

Lemma non_scalar_rejected_witness :
  run willing 31 1 [row_vector 16; not_a_scalar; scalar 2; scalar 2] =
  (Returned,
   mkworld None
     [Err "pwvd61" "Smoothing window length must be a scalar"; NTcheck 1])
  /\
  run willing 31 1 [row_vector 16; scalar 4; not_a_scalar; scalar 2] =
  (Returned,
   mkworld None
     [Err "pwvd61" "Time resolution must be a scalar"; NTcheck 1])
  /\
  run willing 31 1 [row_vector 16; scalar 4; scalar 2; not_a_scalar] =
  (Returned,
   mkworld None
     [Err "pwvd61" "Interpolation degree must be a scalar"; NTcheck 1])
  /\
  run willing 31 1
    [row_vector 16; scalar 4; scalar 2; scalar 2; not_a_scalar] =
  (Returned,
   mkworld None [Err "pwvd61" "FFT length must be a scalar"; NTcheck 1]).
Proof.
  split; [ | split; [ | split ] ].
  - apply (proj1 (non_scalar_rejected willing 31 1
             (row_vector 16) not_a_scalar (scalar 2) (scalar 2) (scalar 0) []
             ltac:(by_eval) ltac:(by_eval) eq_refl eq_refl eq_refl)).
    reflexivity.
  - apply (proj1 (proj2 (non_scalar_rejected willing 31 1
             (row_vector 16) (scalar 4) not_a_scalar (scalar 2) (scalar 0) []
             ltac:(by_eval) ltac:(by_eval) eq_refl eq_refl eq_refl)));
      by_eval.
  - apply (proj1 (proj2 (proj2 (non_scalar_rejected willing 31 1
             (row_vector 16) (scalar 4) (scalar 2) not_a_scalar (scalar 0) []
             ltac:(by_eval) ltac:(by_eval) eq_refl eq_refl eq_refl))));
      by_eval.
  - apply (proj2 (proj2 (proj2 (non_scalar_rejected willing 31 1
             (row_vector 16) (scalar 4) (scalar 2) (scalar 2) not_a_scalar []
             ltac:(by_eval) ltac:(by_eval) eq_refl eq_refl eq_refl))));
      by_eval.
Defined.

(** *** Orientation of the signal *)

Lemma rejected_shape_transposed (s : MATRIX) :
  rejected_shape (transposed s) = rejected_shape s.
Proof.
  unfold rejected_shape, transposed. cbn [mxGetM mxGetN].
  destruct (CInt.of_size (mxGetM s) =? 1), (CInt.of_size (mxGetN s) =? 1);
    reflexivity.
Qed.

Lemma signal_length_of_transposed (s : MATRIX) :
  signal_length_of (transposed s) = signal_length_of s.
Proof.
  unfold signal_length_of, transposed. cbn [mxGetM mxGetN].
  rewrite !Z.gtb_ltb.
  destruct (CInt.of_size (mxGetN s) <? CInt.of_size (mxGetM s)) eqn:H1,
           (CInt.of_size (mxGetM s) <? CInt.of_size (mxGetN s)) eqn:H2;
    try apply Z.ltb_lt in H1; try apply Z.ltb_lt in H2;
    try apply Z.ltb_ge in H1; try apply Z.ltb_ge in H2; lia.
Qed.

(** A row and the column of the same samples are the same to the
    gateway: exchanging the two dimensions of the first argument changes
    nothing of the run. *)
Theorem orientation_irrelevant (h : host) (fuel : nat) (nlhs : Z)
  (sig : MATRIX) (tl : list MATRIX) :
  run h fuel nlhs (transposed sig :: tl) = run h fuel nlhs (sig :: tl).
Proof.
  pose proof (rejected_shape_transposed sig) as Hshape.
  pose proof (signal_length_of_transposed sig) as Hlen.
  unfold rejected_shape, signal_length_of in Hshape, Hlen.
  unfold run, mexFunction.
  change (nrhs_of (transposed sig :: tl)) with (nrhs_of (sig :: tl)).
  cbn [nth]. rewrite Hshape, Hlen. reflexivity.
Qed.

(** *** A transform length that is not above the window length *)

(** Turns the tests met so far into facts about integers. *)
Ltac tests_to_facts :=
  repeat match goal with
         | H : (_ >? _) = _ |- _ => rewrite Z.gtb_ltb in H
         | H : (_ <? _) = true |- _ => apply Z.ltb_lt in H
         | H : (_ <? _) = false |- _ => apply Z.ltb_ge in H
         end.

(** A fifth argument that [(int)] reads between 0 and the window length
    (after its clamp) is as good as none: the length that is rounded is the window length
    either way, and the whole run is the same. *)
Theorem small_fft_length_ignored (h : host) (fuel : nat) (nlhs : Z)
  (sig pw pt pd pf : MATRIX) :
  GoodScalar pf = true ->
  0 <= int_value pf <= clamped (int_value pw) (signal_length_of sig) ->
  run h fuel nlhs [sig; pw; pt; pd; pf] = run h fuel nlhs [sig; pw; pt; pd].
Proof.
  intros Hpf Hfft. unfold clamped in Hfft.
  unfold run, mexFunction.
  change (nrhs_of [sig; pw; pt; pd; pf]) with 5.
  change (nrhs_of [sig; pw; pt; pd]) with 4.
  cbn [nth]. fold (signal_length_of sig).
  repeat gw_branch.
  gw_case; [ reflexivity | ].
  gw_case; [ reflexivity | ].
  gw_case; [ reflexivity | ].
  gw_case; [ reflexivity | ].
  gw_case; [ reflexivity | ].
  gw_case;
    (gw_case; [ reflexivity | ]);
    (gw_case; [ reflexivity | ]);
    (gw_case; [ reflexivity | ]);
    (gw_case; [ reflexivity | ]);
    (gw_case; [ | reflexivity ]);
    tests_to_facts;
    repeat gw_branch;
    rewrite Z.ltb_irrefl;
    match goal with
    | |- context [if int_value pf <? ?b then _ else _] =>
        destruct (int_value pf <? b) eqn:Hlt;
        [ reflexivity
        | apply Z.ltb_ge in Hlt;
          replace (int_value pf) with b by lia; reflexivity ]
    end.
Qed.

Lemma small_fft_length_ignored_witness :
  run willing 31 1
    [row_vector 16; scalar 4; scalar 2; scalar 2;
     mkMATRIX true true false 1 1 true (- 1 # 2)]
  = run willing 31 1 [row_vector 16; scalar 4; scalar 2; scalar 2].
Proof.
  apply (small_fft_length_ignored willing 31 1 (row_vector 16) (scalar 4)
           (scalar 2) (scalar 2)
           (mkMATRIX true true false 1 1 true (- 1 # 2))); by_eval.
Defined.

(** *** What the engine can rely on *)

(** Whatever the fuel, a radix loop that has left started from a bound
    within reach and holds the least power of two not below it. *)
Lemma r2_loop_sound (fuel : nat) (x o r2 : Z) :
  r2_loop fuel x 0 1 = Some (o, r2) ->
  x <= 2 ^ 30 /\ 0 <= o <= 30 /\ r2 = 2 ^ o /\ least_pow2_above x r2.
Proof.
  intros Hrun.
  destruct (Z.le_gt_cases x (2 ^ 30)) as [Hx | Hx].
  - destruct (r2_loop_spec x (Nat.max fuel 31) Hx (Nat.le_max_r _ _))
      as (j & Hj & Hj' & Hleast).
    rewrite (r2_loop_fuel_mono fuel (Nat.max fuel 31) x 0 1 (o, r2)
               (Nat.le_max_l _ _) Hrun) in Hj'.
    injection Hj' as -> ->. auto.
  - rewrite r2_loop_diverges in Hrun by lia. discriminate.
Qed.

Lemma deg_loop_sound (fuel : nat) (x d : Z) :
  deg_loop fuel x 1 = Some d ->
  x <= 2 ^ 30 /\ (exists k, 0 <= k <= 30 /\ d = 2 ^ k) /\
  least_pow2_above x d.
Proof.
  rewrite (deg_loop_r2_loop fuel x 0 1).
  destruct (r2_loop fuel x 0 1) as [[o r2] |] eqn:Hrun; [ | discriminate ].
  cbn. intros Hd. injection Hd as <-.
  destruct (r2_loop_sound fuel x o r2 Hrun) as (Hx & Ho & Hr2 & Hleast).
  split; [ exact Hx | ]. split; [ exists o; auto | exact Hleast ].
Qed.

(** Whenever [pwvd61] is called, on any arguments of the gateway, its
    integer arguments are consistent: the time step and the window
    length lie between 1 and the signal length; there is at least one
    instant, and the last one, [(nplts - 1) * time_res], is an index of
    the signal; [window_r2] is [2^window_order] with an order from 0 to
    30 and covers the window; the order of interpolation is a power of
    two up to [2^30]; and the matrix that was asked for has
    [window_r2 / 2] rows and [nplts] columns. *)
Theorem engine_arguments_in_bounds (h : host) (fuel : nat) (nlhs : Z)
  (prhs : list MATRIX) (c : Engine.call) :
  engine_call (log (snd (run h fuel nlhs prhs))) = Some c ->
  1 <= Engine.time_res c <= Engine.signal_length c /\
  1 <= Engine.window_length c <= Engine.signal_length c /\
  1 <= Engine.nplts c <= Engine.signal_length c /\
  (Engine.nplts c - 1) * Engine.time_res c < Engine.signal_length c /\
  0 <= Engine.window_order c <= 30 /\
  Engine.window_r2 c = 2 ^ Engine.window_order c /\
  Engine.window_length c <= Engine.window_r2 c /\
  (exists k, 0 <= k <= 30 /\ Engine.deg c = 2 ^ k) /\
  requested_shape (log (snd (run h fuel nlhs prhs)))
  = Some (Engine.window_r2 c / 2, Engine.nplts c).
Proof.
  destruct (run_outcome h fuel nlhs prhs)
    as [pre Hq | pre msg Hq Hmsg | sig pw pt pd rest d o r2 Hprhs Hv Hd Hr].
  - destruct Hq as [-> | ->]; discriminate.
  - cbn [snd log]. rewrite (proj2 (rejected_quiet pre msg nlhs Hq)).
    discriminate.
  - rewrite computation_engine_call, computation_requested_shape
      by apply truncation_warning_quiet.
    destruct (create_ok h _ _); [ | discriminate ].
    intros Hc. injection Hc as <-. cbn [Engine.time_res Engine.signal_length
      Engine.window_length Engine.nplts Engine.window_order Engine.window_r2
      Engine.deg].
    destruct Hv as [_ _ _ _ _ Hwl _ Hts _ _].
    destruct (r2_loop_sound _ _ _ _ Hr) as (_ & Ho & -> & (_ & Hge & _)).
    destruct (deg_loop_sound _ _ _ Hd) as (_ & Hk & _).
    pose proof (nplts_of_ceiling (signal_length_of sig) (int_value pt)
                  ltac:(lia)) as [Hlo Hhi].
    rewrite effective_fft_max in Hge.
    assert (1 <= clamped (int_value pw) (signal_length_of sig)
            <= signal_length_of sig) as Hclamp.
    { unfold clamped.
      destruct (int_value pw >? signal_length_of sig) eqn:Hgt;
        rewrite Z.gtb_ltb in Hgt;
        [ apply Z.ltb_lt in Hgt | apply Z.ltb_ge in Hgt ]; lia. }
    rewrite half_rows_pow2 by exact Ho.
    repeat (split; [ first [ assumption | lia | nia ] | ]).
    reflexivity.
Qed.

Lemma engine_arguments_in_bounds_witness :
  let c := Engine.mkcall true 16 6 3 16 128 7 8 in
  1 <= Engine.time_res c <= Engine.signal_length c /\
  1 <= Engine.window_length c <= Engine.signal_length c /\
  1 <= Engine.nplts c <= Engine.signal_length c /\
  (Engine.nplts c - 1) * Engine.time_res c < Engine.signal_length c /\
  0 <= Engine.window_order c <= 30 /\
  Engine.window_r2 c = 2 ^ Engine.window_order c /\
  Engine.window_length c <= Engine.window_r2 c /\
  (exists k, 0 <= k <= 30 /\ Engine.deg c = 2 ^ k) /\
  requested_shape
    (log (snd (run willing 31 1
                 [row_vector 16; scalar 40; scalar 3; scalar 5;
                  scalar 100])))
  = Some (Engine.window_r2 c / 2, Engine.nplts c).
Proof.
  apply (engine_arguments_in_bounds willing 31 1
           [row_vector 16; scalar 40; scalar 3; scalar 5; scalar 100]).
  reflexivity.
Defined.

(** *** The number of instants *)

Lemma ceiling_unique (a b c c' : Z) :
  0 < b -> is_ceiling a b c -> is_ceiling a b c' -> c = c'.
Proof. unfold is_ceiling. intros Hb [H1 H2] [H1' H2']. nia. Qed.

(** [(int) ceil((double)signal_length / time_res)] at its two ends and
    in between: a step of the whole signal gives one instant, a step of
    1 one instant per sample; a longer step never gives more instants;
    and the count is the quotient, plus one when the step does not
    divide the length. *)
Theorem instants_by_step (signal_length time_res : Z) :
  1 <= time_res <= signal_length ->
  nplts_of signal_length signal_length = 1 /\
  nplts_of signal_length 1 = signal_length /\
  (forall longer, time_res <= longer ->
     nplts_of signal_length longer <= nplts_of signal_length time_res) /\
  nplts_of signal_length time_res
  = signal_length / time_res
    + (if signal_length mod time_res =? 0 then 0 else 1).
Proof.
  intros Hts. split; [ | split; [ | split ] ].
  - apply (ceiling_unique signal_length signal_length); try lia.
    + apply nplts_of_ceiling. lia.
    + unfold is_ceiling. lia.
  - apply (ceiling_unique signal_length 1); try lia.
    + apply nplts_of_ceiling. lia.
    + unfold is_ceiling. lia.
  - intros longer Hlonger.
    pose proof (nplts_of_ceiling signal_length longer ltac:(lia)) as [H1 H2].
    pose proof (nplts_of_ceiling signal_length time_res ltac:(lia))
      as [H1' H2'].
    set (n' := nplts_of signal_length longer) in *.
    set (n := nplts_of signal_length time_res) in *.
    destruct (Z.le_gt_cases n' n) as [ | Hgt ]; [ assumption | exfalso ].
    assert (1 <= n) by nia.
    assert (n * time_res <= n * longer) by (apply Z.mul_le_mono_nonneg_l; lia).
    assert (n * longer <= (n' - 1) * longer)
      by (apply Z.mul_le_mono_nonneg_r; lia).
    lia.
  - apply (ceiling_unique signal_length time_res); try lia.
    + apply nplts_of_ceiling. lia.
    + unfold is_ceiling.
      pose proof (Z.div_mod signal_length time_res ltac:(lia)) as Hdm.
      pose proof (Z.mod_pos_bound signal_length time_res ltac:(lia)) as Hmod.
      destruct (signal_length mod time_res =? 0) eqn:Hz;
        [ apply Z.eqb_eq in Hz | apply Z.eqb_neq in Hz ]; nia.
Qed.

Lemma instants_by_step_witness :
  nplts_of 16 16 = 1 /\
  nplts_of 16 1 = 16 /\
  (forall longer, 3 <= longer -> nplts_of 16 longer <= nplts_of 16 3) /\
  nplts_of 16 3 = 16 / 3 + (if 16 mod 3 =? 0 then 0 else 1).
Proof.
  apply (instants_by_step 16 3). lia.
Defined.

(** *** The two roundings *)

(** The radix loop computes the ceiling of the binary logarithm: for
    every transform length up to [2^30], zero and negative ones
    included, [window_order] is [Z.log2_up] of it and [window_r2] that
    power of two. *)
Theorem window_order_is_log2_up (fuel : nat) (fft_length : Z) :
  fft_length <= 2 ^ 30 ->
  (31 <= fuel)%nat ->
  r2_loop fuel fft_length 0 1
  = Some (Z.log2_up fft_length, 2 ^ Z.log2_up fft_length).
Proof.
  intros Hx Hfuel.
  destruct (r2_loop_spec fft_length fuel Hx Hfuel)
    as (j & Hj & Hrun & (_ & Hge & Hmin)).
  rewrite Hrun. f_equal.
  assert (j = Z.log2_up fft_length) as <-; [ | reflexivity ].
  pose proof (Z.log2_up_nonneg fft_length) as Hnn.
  destruct (Z.le_gt_cases fft_length 1) as [Hsmall | Hbig].
  - rewrite Z.log2_up_eqn0 by exact Hsmall.
    assert (2 ^ j <= 2 ^ 0) as Hle
      by (apply Hmin; [ exists 0; split; [ lia | reflexivity ] | simpl; lia ]).
    apply Z.pow_le_mono_r_iff in Hle; lia.
  - destruct (Z.log2_up_spec fft_length Hbig) as [Hlo Hhi].
    assert (2 ^ j <= 2 ^ Z.log2_up fft_length) as Hle
      by (apply Hmin; [ exists (Z.log2_up fft_length); auto | exact Hhi ]).
    apply Z.pow_le_mono_r_iff in Hle; try lia.
    assert (2 ^ Z.pred (Z.log2_up fft_length) < 2 ^ j) as Hlt by lia.
    apply Z.pow_lt_mono_r_iff in Hlt; lia.
Qed.

Lemma window_order_is_log2_up_witness :
  r2_loop 31 100 0 1 = Some (Z.log2_up 100, 2 ^ Z.log2_up 100).
Proof.
  apply (window_order_is_log2_up 31 100); [ by_eval | lia ].
Defined.



(** *** When the gateway comes back *)

(** A call that passes every check comes back, for some amount of fuel,
    exactly when its order of interpolation and its effective transform
    length, as [(int)] reads them, are both at most [2^30]; beyond that it stays in a doubling
    loop for ever, with no error reported and nothing allocated. *)
Theorem returns_iff_within_reach (h : host) (nlhs : Z)
  (sig pw pt pd : MATRIX) (rest : list MATRIX) :
  validated nlhs sig pw pt pd rest ->
  ((exists fuel,
      fst (run h fuel nlhs (sig :: pw :: pt :: pd :: rest)) <> Spinning)
   <->
   int_value pd <= 2 ^ 30 /\
   effective_fft rest (clamped (int_value pw) (signal_length_of sig))
   <= 2 ^ 30)
  /\
  (2 ^ 30 < int_value pd \/
   2 ^ 30
   < effective_fft rest (clamped (int_value pw) (signal_length_of sig)) ->
   forall fuel,
     run h fuel nlhs (sig :: pw :: pt :: pd :: rest)
     = (Spinning,
        mkworld None
          (truncation_warning (int_value pw) (signal_length_of sig)))).
Proof.
  intros Hv. split; [ split | ].
  - intros (fuel & Hflow).
    destruct (Z.le_gt_cases (int_value pd) (2 ^ 30)) as [Hd | Hd];
      [ destruct (Z.le_gt_cases
                    (effective_fft rest
                       (clamped (int_value pw) (signal_length_of sig)))
                    (2 ^ 30)) as [Hf | Hf];
        [ auto | ] | ];
      exfalso; apply Hflow;
      rewrite (run_spinning h fuel nlhs _ _ _ _ _ Hv) by (auto; lia);
      reflexivity.
  - intros [Hd Hf]. exists 31%nat.
    destruct (run_validated h 31 nlhs sig pw pt pd rest Hv Hd Hf (le_n _))
      as (i & j & _ & _ & _ & _ & ->).
    unfold computation.
    destruct (create_ok h _ _);
      [ destruct (pwvd61_status h _ =? 0) | ]; discriminate.
  - intros Hfar fuel. apply run_spinning; assumption.
Qed.

Lemma returns_iff_within_reach_witness :
  ((exists fuel,
      fst (run willing fuel 1
             [row_vector 16; scalar 4; scalar 2; scalar (2 ^ 30 + 1)])
      <> Spinning)
   <->
   int_value (scalar (2 ^ 30 + 1)) <= 2 ^ 30 /\
   effective_fft []
     (clamped (int_value (scalar 4)) (signal_length_of (row_vector 16)))
   <= 2 ^ 30)
  /\
  (2 ^ 30 < int_value (scalar (2 ^ 30 + 1)) \/
   2 ^ 30
   < effective_fft []
       (clamped (int_value (scalar 4)) (signal_length_of (row_vector 16))) ->
   forall fuel,
     run willing fuel 1
       [row_vector 16; scalar 4; scalar 2; scalar (2 ^ 30 + 1)]
     = (Spinning,
        mkworld None
          (truncation_warning (int_value (scalar 4))
             (signal_length_of (row_vector 16))))).
Proof.
  apply (returns_iff_within_reach willing 1 (row_vector 16) (scalar 4)
           (scalar 2) (scalar (2 ^ 30 + 1)) []).
  constructor; by_eval.
Defined.

(** *** What a log can look like *)

Lemma count_app (kind : event -> bool) (l l' : list event) :
  count kind (l ++ l') = (count kind l + count kind l')%nat.
Proof. unfold count. rewrite filter_app, length_app. reflexivity. Qed.

(** On every call, the gateway reports at most one error and at most
    one warning, asks for at most one matrix and calls the engine at
    most once; the call of the engine comes right after the grant of
    its matrix, with nothing before the two but the warning, if any;
    an error, once reported, is followed by [winNTcheck] and by nothing
    else. *)
Theorem log_discipline (h : host) (fuel : nat) (nlhs : Z)
  (prhs : list MATRIX) :
  let l := log (snd (run h fuel nlhs prhs)) in
  (count is_error l <= 1)%nat /\
  (count is_warning l <= 1)%nat /\
  (count is_create l <= 1)%nat /\
  (count is_engine l <= 1)%nat /\
  (forall c status,
     In (Pwvd61 c status) l ->
     exists before m n after,
       quiet before /\
       l = before ++ [Create m n true; Pwvd61 c status] ++ after) /\
  (has_error l = true ->
   exists before msg, l = before ++ [Err "pwvd61" msg; NTcheck nlhs]).
Proof.
  cbv zeta.
  destruct (run_outcome h fuel nlhs prhs)
    as [pre Hq | pre msg Hq Hmsg | sig pw pt pd rest d o r2 Hprhs Hv Hd Hr].
  - cbn [snd log].
    destruct Hq as [-> | ->]; cbn; repeat split; try lia;
      try (intros; intuition discriminate).
  - cbn [snd log].
    destruct Hq as [-> | ->]; cbn; repeat split; try lia;
      try (intros c status [Hin | [Hin | Hin]]; intuition discriminate);
      try (intros c status [Hin | [Hin | [Hin | Hin]]];
           intuition discriminate);
      intros _.
    + exists [], msg. reflexivity.
    + exists [Warning "pwvd61"
                "Window length has been truncated to signal length"], msg.
      reflexivity.
  - unfold computation.
    pose proof (truncation_warning_quiet (int_value pw) (signal_length_of sig))
      as Hq.
    set (pre := truncation_warning (int_value pw) (signal_length_of sig)) in *.
    set (rows := half_rows r2). set (cols := nplts_of _ _).
    set (c0 := Engine.mkcall _ _ _ _ _ _ _ _).
    assert (count is_error pre = 0 /\ count is_warning pre <= 1 /\
            count is_create pre = 0 /\ count is_engine pre = 0 /\
            has_error pre = false /\
            forall c status, ~ In (Pwvd61 c status) pre)%nat as Hpre.
    { destruct Hq as [-> | ->]; cbn; repeat split; try lia;
        intros c status Hin; intuition discriminate. }
    destruct Hpre as (He & Hw & Hc & Hg & Hhe & Hnot).
    destruct (create_ok h rows cols);
      [ destruct (pwvd61_status h c0 =? 0) | ];
      cbn [snd log]; rewrite !count_app; rewrite He, Hc, Hg;
      (split; [ cbn; lia | ]); (split; [ cbn; lia | ]);
      (split; [ cbn; lia | ]); (split; [ cbn; lia | ]); split.
    + intros c status Hin. apply in_app_or in Hin.
      destruct Hin as [Hin | Hin]; [ destruct (Hnot _ _ Hin) | ].
      cbn in Hin. destruct Hin as [Hin | [Hin | []]]; [ discriminate | ].
      injection Hin as <- <-.
      exists pre, rows, cols, []. split; [ exact Hq | reflexivity ].
    + unfold has_error. rewrite existsb_app. fold (has_error pre).
      rewrite Hhe. cbn. discriminate.
    + intros c status Hin. apply in_app_or in Hin.
      destruct Hin as [Hin | Hin]; [ destruct (Hnot _ _ Hin) | ].
      cbn in Hin.
      destruct Hin as [Hin | [Hin | [Hin | [Hin | []]]]]; try discriminate.
      injection Hin as <- <-.
      exists pre, rows, cols,
        [Err "pwvd61" "Function failed"; NTcheck nlhs].
      split; [ exact Hq | reflexivity ].
    + intros _.
      exists (pre ++ [Create rows cols true;
                      Pwvd61 c0 (pwvd61_status h c0)]),
        "Function failed"%string.
      rewrite <- app_assoc. reflexivity.
    + intros c status Hin. apply in_app_or in Hin.
      destruct Hin as [Hin | Hin]; [ destruct (Hnot _ _ Hin) | ].
      cbn in Hin. destruct Hin as [Hin | [Hin | [Hin | []]]]; discriminate.
    + intros _.
      exists (pre ++ [Create rows cols false]),
        "Memory allocation failed"%string.
      rewrite <- app_assoc. reflexivity.
Qed.

(** *** When the warning is given *)

Lemma silent_ret (A : Type) (a : A) : silent (ret a).
Proof. intros w. reflexivity. Qed.

Lemma silent_return (A : Type) : silent (@return_ A).
Proof. intros w. reflexivity. Qed.

Lemma silent_skip : silent skip.
Proof. intros w. reflexivity. Qed.

Lemma silent_emit (x : event) : is_warning x = false -> silent (emit x).
Proof.
  intros Hx w. cbn [emit snd log]. rewrite count_app.
  unfold count at 2. cbn [filter]. rewrite Hx. cbn. lia.
Qed.

Lemma silent_of_loop (A : Type) (r : option A) : silent (of_loop r).
Proof. intros w. destruct r; reflexivity. Qed.

Lemma silent_set_plhs0 (p : option (Z * Z)) : silent (set_plhs0 p).
Proof. intros w. reflexivity. Qed.

Lemma silent_winNTcheck (nlhs : Z) : silent (winNTcheck nlhs).
Proof.
  intros w. cbn [winNTcheck snd log]. rewrite count_app. cbn. lia.
Qed.

Lemma silent_MXCREATEFULL (h : host) (m n : Z) : silent (MXCREATEFULL h m n).
Proof.
  intros w. cbn [MXCREATEFULL snd log]. rewrite count_app. cbn. lia.
Qed.

Lemma silent_pwvd61 (h : host) (c : Engine.call) : silent (pwvd61 h c).
Proof.
  intros w. cbn [pwvd61 snd log]. rewrite count_app. cbn. lia.
Qed.

Lemma silent_bind (A B : Type) (m : gw A) (k : A -> gw B) :
  silent m -> (forall a, silent (k a)) -> silent (bind m k).
Proof.
  intros Hm Hk w. unfold bind. specialize (Hm w).
  destruct (m w) as [[a | |] w']; cbn [snd] in *; try assumption.
  rewrite Hk. exact Hm.
Qed.

Lemma silent_if (A : Type) (b : bool) (m1 m2 : gw A) :
  silent m1 -> silent m2 -> silent (if b then m1 else m2).
Proof. destruct b; auto. Qed.

Lemma silent_tfsaErr (name msg : string) : silent (tfsaErr name msg).
Proof. apply silent_emit. reflexivity. Qed.

Lemma silent_fail (nlhs : Z) (msg : string) : silent (fail nlhs msg).
Proof.
  unfold fail.
  repeat (apply silent_bind; [ | intros _ ]);
    auto using silent_tfsaErr, silent_winNTcheck, silent_return.
Qed.

Create HintDb gw_silent.
#[local] Hint Resolve silent_ret silent_return silent_skip silent_of_loop
  silent_set_plhs0 silent_winNTcheck silent_MXCREATEFULL silent_pwvd61
  silent_bind silent_if silent_tfsaErr silent_fail : gw_silent.

(** A test of the gateway that sent the call away cannot hold together
    with the conditions under which the warning is given. *)
Ltac no_warning_leaf :=
  split;
  [ cbn; discriminate
  | intros (Hn & Hnl & Hnum & Hfull & Hsh & Hpw & Hgt & Hwl); exfalso;
    tests_to_facts;
    first
      [ lia
      | congruence
      | match goal with
        | H : negb _ || negb _ = true |- _ =>
            rewrite Hnum, Hfull in H; discriminate
        | H : negb (GoodScalar _) = true |- _ =>
            rewrite Hpw in H; discriminate
        end ] ].

(** The warning is given exactly when the call has 4 or 5 right-hand
    arguments and at most one output, its first argument passes the
    checks of the signal, and its second is a good scalar that [(int)]
    reads above the signal length: whatever happens afterwards, the log then holds it,
    and no other call has it in its log. *)
Theorem warning_exactly_when_clamped (h : host) (fuel : nat) (nlhs : Z)
  (prhs : list MATRIX) :
  count is_warning (log (snd (run h fuel nlhs prhs))) = 1%nat
  <->
  4 <= nrhs_of prhs <= 5 /\ nlhs <= 1 /\
  mxIsNumeric (nth 0 prhs mxNULL) = true /\
  MXFULL (nth 0 prhs mxNULL) = true /\
  rejected_shape (nth 0 prhs mxNULL) = false /\
  GoodScalar (nth 1 prhs mxNULL) = true /\
  signal_length_of (nth 0 prhs mxNULL) < int_value (nth 1 prhs mxNULL) /\
  1 <= int_value (nth 1 prhs mxNULL).
Proof.
  unfold run, mexFunction, rejected_shape.
  fold (signal_length_of (nth 0 prhs mxNULL)).
  do 7 (gw_case; [ no_warning_leaf | ]).
  tests_to_facts.
  repeat match goal with
         | H : _ || _ = false |- _ =>
             apply orb_false_elim in H; destruct H
         | H : negb _ = false |- _ => apply negb_false_iff in H
         end.
  gw_case; tests_to_facts;
    match goal with
    | |- context [snd (?m ?w)] =>
        assert (silent m) as Hsilent by auto 40 with gw_silent;
        rewrite (Hsilent w)
    end;
    cbn [log count is_warning filter List.length].
  - split; [ intros _ | reflexivity ].
    repeat (split; [ first [ assumption | lia ] | ]). lia.
  - split; [ discriminate | ]. intros (_ & _ & _ & _ & _ & _ & Hgt & _). lia.
Qed.

Lemma warning_exactly_when_clamped_witness :
  count is_warning
    (log (snd (run willing 31 1
                 [row_vector 16; scalar 40; not_a_scalar; scalar 5])))
  = 1%nat.
Proof.
  apply (proj2 (warning_exactly_when_clamped willing 31 1
                  [row_vector 16; scalar 40; not_a_scalar; scalar 5])).
  repeat split; by_eval.
Defined.

(** *** Parameters that are not whole numbers *)

Lemma int_value_whole (p : MATRIX) : int_value (whole p) = int_value p.
Proof.
  unfold int_value at 1. cbn [whole mxGetPr].
  apply of_double_int, of_double_in_range.
Qed.

Lemma nth_whole (i : nat) (ps : list MATRIX) :
  nth i (map whole ps) mxNULL = whole (nth i ps mxNULL).
Proof. change mxNULL with (whole mxNULL) at 1. apply map_nth. Qed.

Lemma truncate_small (d : Q) : (- (1) < d)%Q -> (d < 1)%Q ->
  CInt.truncate d = 0.
Proof.
  intros Hlo Hhi. unfold CInt.truncate.
  destruct (Qle_bool 0 d) eqn:Hsign.
  - apply Qle_bool_iff in Hsign.
    pose proof (Qfloor_le d) as H1. pose proof (Qlt_floor d) as H2.
    assert (inject_Z (Qfloor d) < inject_Z 1)%Q as H3
      by (eapply Qle_lt_trans; eauto).
    assert (inject_Z 0 < inject_Z (Qfloor d + 1))%Q as H4
      by (eapply Qle_lt_trans; eauto).
    rewrite <- Zlt_Qlt in H3, H4. lia.
  - assert (d < 0)%Q as Hneg.
    { apply Qnot_le_lt. intro Hle. apply Qle_bool_iff in Hle. congruence. }
    pose proof (Qle_ceiling d) as H1. pose proof (Qceiling_lt d) as H2.
    assert (inject_Z (- 1) < inject_Z (Qceiling d))%Q as H3
      by (eapply Qlt_le_trans; eauto).
    assert (inject_Z (Qceiling d - 1) < inject_Z 0)%Q as H4
      by (eapply Qlt_trans; eauto).
    rewrite <- Zlt_Qlt in H3, H4. lia.
Qed.

Lemma of_double_small (d : Q) : (- (1) < d)%Q -> (d < 1)%Q ->
  CInt.of_double d = 0.
Proof.
  intros Hlo Hhi. unfold CInt.of_double.
  rewrite (truncate_small d Hlo Hhi). reflexivity.
Qed.

(** The gateway reads its parameters through [(int)] alone: dropping
    the fractional part of every parameter changes nothing of the run,
    and a parameter strictly between -1 and 1 is read as 0 (so that a
    window length of one half is refused as "not greater than zero",
    and a transform length of minus one half is taken). *)
Theorem fractions_discarded (h : host) (fuel : nat) (nlhs : Z)
  (sig : MATRIX) (ps : list MATRIX) :
  run h fuel nlhs (sig :: map whole ps) = run h fuel nlhs (sig :: ps)
  /\
  (forall p, (- (1) < mxGetPr p)%Q -> (mxGetPr p < 1)%Q -> int_value p = 0).
Proof.
  split.
  - unfold run, mexFunction.
    replace (nrhs_of (sig :: map whole ps)) with (nrhs_of (sig :: ps))
      by (unfold nrhs_of; cbn [List.length]; rewrite length_map; reflexivity).
    cbn [nth]. rewrite !nth_whole, !int_value_whole. reflexivity.
  - intros p Hlo Hhi. apply of_double_small; assumption.
Qed.

(** *** When the engine is called *)

(** With fuel enough for the two loops, [pwvd61] is called exactly when
    the call passes every check, its order and its effective transform
    length, as [(int)] reads them, are at most [2^30], and the host grants the matrix of
    [radix_length / 2] rows and [nplts] columns. *)
Theorem engine_called_iff (h : host) (fuel : nat) (nlhs : Z)
  (sig pw pt pd : MATRIX) (rest : list MATRIX) :
  (31 <= fuel)%nat ->
  (engine_call (log (snd (run h fuel nlhs (sig :: pw :: pt :: pd :: rest))))
   <> None
   <->
   validated nlhs sig pw pt pd rest /\
   int_value pd <= 2 ^ 30 /\
   exists radix_length,
     radix_length <= 2 ^ 30 /\
     least_pow2_above
       (effective_fft rest (clamped (int_value pw) (signal_length_of sig)))
       radix_length /\
     create_ok h (radix_length / 2)
       (nplts_of (signal_length_of sig) (int_value pt)) = true).
Proof.
  intros Hfuel. split.
  - destruct (engine_call _) as [c |] eqn:Hcall; [ intros _ | congruence ].
    destruct (engine_called _ _ _ _ _ Hcall)
      as (sig' & pw' & pt' & pd' & rest' & Hprhs & Hv & Hd & Hr & _).
    injection Hprhs as <- <- <- <- <-.
    destruct (deg_loop_sound _ _ _ Hd) as (Hdeg & _ & _).
    destruct (r2_loop_sound _ _ _ _ Hr) as (Hfft & Ho & Hr2 & Hleast).
    split; [ exact Hv | ]. split; [ exact Hdeg | ].
    exists (Engine.window_r2 c).
    split; [ rewrite Hr2; apply Z.pow_le_mono_r; lia | ].
    split; [ exact Hleast | ].
    destruct (run_validated h fuel nlhs sig pw pt pd rest Hv Hdeg Hfft Hfuel)
      as (i & j & Hi & Hj & _ & Hl & Hrun).
    assert (Engine.window_r2 c = 2 ^ j) as Hsame.
    { destruct Hl as (Hp & Hge & Hmin). destruct Hleast as (Hp' & Hge' & Hmin').
      apply Z.le_antisymm; auto. }
    rewrite Hrun, computation_engine_call in Hcall
      by apply truncation_warning_quiet.
    rewrite Hsame, <- half_rows_pow2 by exact Hj.
    destruct (create_ok h _ _); [ reflexivity | discriminate ].
  - intros (Hv & Hdeg & r & Hr & Hleast & Hgrant).
    assert (effective_fft rest
              (clamped (int_value pw) (signal_length_of sig)) <= 2 ^ 30)
      as Hfft by (destruct Hleast as (_ & Hge & _); lia).
    destruct (run_validated h fuel nlhs sig pw pt pd rest Hv Hdeg Hfft Hfuel)
      as (i & j & Hi & Hj & _ & Hl & Hrun).
    assert (r = 2 ^ j) as ->.
    { destruct Hl as (Hp & Hge & Hmin). destruct Hleast as (Hp' & Hge' & Hmin').
      apply Z.le_antisymm; auto. }
    rewrite Hrun, computation_engine_call
      by apply truncation_warning_quiet.
    rewrite <- half_rows_pow2 in Hgrant by exact Hj.
    rewrite Hgrant. discriminate.
Qed.

Lemma engine_called_iff_witness :
  engine_call
    (log (snd (run willing 31 1
                 [row_vector 16; scalar 40; scalar 3; scalar 5; scalar 100])))
  <> None
  <->
  validated 1 (row_vector 16) (scalar 40) (scalar 3) (scalar 5) [scalar 100] /\
  int_value (scalar 5) <= 2 ^ 30 /\
  exists radix_length,
    radix_length <= 2 ^ 30 /\
    least_pow2_above
      (effective_fft [scalar 100]
         (clamped (int_value (scalar 40)) (signal_length_of (row_vector 16))))
      radix_length /\
    create_ok willing (radix_length / 2)
      (nplts_of (signal_length_of (row_vector 16)) (int_value (scalar 3)))
    = true.
Proof.
  apply (engine_called_iff willing 31 1 (row_vector 16) (scalar 40)
           (scalar 3) (scalar 5) [scalar 100]).
  lia.
Defined.

Lemma fractions_discarded_witness :
  run willing 31 1
    (row_vector 16
     :: map whole
          [mkMATRIX true true false 1 1 true (9 # 2); scalar 2; scalar 2])
  = run willing 31 1
      [row_vector 16; mkMATRIX true true false 1 1 true (9 # 2);
       scalar 2; scalar 2]
  /\
  int_value (mkMATRIX true true false 1 1 true (1 # 2)) = 0.
Proof.
  destruct (fractions_discarded willing 31 1 (row_vector 16)
              [mkMATRIX true true false 1 1 true (9 # 2); scalar 2; scalar 2])
    as [Hrun Hzero].
  split; [ exact Hrun | ].
  apply Hzero; reflexivity.
Defined.
